(** * VTextField: a shallow embedding of the text-field widget's logic

    Source: packages/vuetify/src/components/VTextField/VTextField.tsx

    The file embeds the [setup] function of the component: the derived
    computations ([counterValue], [max], [isActive]) as pure functions of
    the props, the attrs and the reactive state, and the event handlers
    ([onIntersect], [onFocus], [onControlMousedown], [onControlClick],
    [onClear], [onInput]) as computations in a state-and-exception monad
    over a [World] that holds the reactive state, the part of the DOM the
    handlers touch, the [nextTick] queue and a trace of observable effects.
    The render function is embedded by what it computes itself: the
    counter and details tests, the root's classes, the flags of the field
    chrome, and the trees of the content and details slots. *)

From stdpp Require Import base strings list gmap.
From Stdlib Require Import ZArith Lia.

Open Scope Z_scope.

(** ** JavaScript values *)

Module JS.

(** The primitive values a prop or an attribute can hold.  Numbers are
    kept by their integral value, with [VNaN] apart (it is the other
    falsy number); [VObject] stands for any non-callable object. *)
Inductive value : Type :=
| VUndefined
| VNull
| VBool (b : bool)
| VNumber (z : Z)
| VNaN
| VString (s : string)
| VObject (ref : nat).

#[global] Instance value_eq_dec : EqDecision value.
Proof. solve_decision. Defined.

Inductive type_tag : Type :=
| TUndefined | TObject | TBoolean | TNumber | TString | TFunction.

#[global] Instance type_tag_eq_dec : EqDecision type_tag.
Proof. solve_decision. Defined.

(** [typeof v] *)
Definition typeof (v : value) : type_tag :=
  match v with
  | VUndefined => TUndefined
  | VNull => TObject
  | VBool _ => TBoolean
  | VNumber _ | VNaN => TNumber
  | VString _ => TString
  | VObject _ => TObject
  end.

(** ToBoolean: what [if (v)] and [!v] test. *)
Definition truthy (v : value) : bool :=
  match v with
  | VUndefined | VNull | VNaN => false
  | VBool b => b
  | VNumber z => negb (z =? 0)
  | VString s => negb (bool_decide (s = ""))
  | VObject _ => true
  end.

(** Property read [o.k] on a plain object: [undefined] when absent. *)
Definition prop (o : gmap string value) (k : string) : value :=
  default VUndefined (o !! k).

(** Errors a handler can raise. *)
Inductive error : Type :=
| TypeError (msg : string)
| DOMException (name : string).

(** How a call completes: normally with a value, or abruptly. *)
Inductive completion (A : Type) : Type :=
| Normal (a : A)
| Throw (e : error)
| OutOfFuel.
#[global] Arguments Normal {A} a.
#[global] Arguments Throw {A} e.
#[global] Arguments OutOfFuel {A}.

End JS.

Import JS.

(** ** Props, attrs and the Model Value *)

(** The Model Value: the control's text, [null] once cleared, or
    [undefined] when the owner passes none. *)
Inductive modelValue : Type :=
| MUndefined
| MNull
| MText (s : string).

#[global] Instance modelValue_eq_dec : EqDecision modelValue.
Proof. solve_decision. Defined.

(** [(v ?? '')] on a Model Value. *)
Definition nullish_or_empty (v : modelValue) : string :=
  match v with
  | MUndefined | MNull => ""
  | MText s => s
  end.

(** [s.toString().length]: [toString] is the identity on a string and
    [length] counts its code units, here the characters of the string. *)
Definition toString_length (s : string) : Z := Z.of_nat (String.length s).

(** What the [counterValue] prop holds: nothing, a function
    [(value: any) => number], or (the prop check only warns) anything else. *)
Inductive counterValueProp : Type :=
| CVMissing
| CVFunction (f : modelValue -> completion Z)
| CVOther (v : value).

Definition typeof_counterValueProp (c : counterValueProp) : type_tag :=
  match c with
  | CVMissing => TUndefined
  | CVFunction _ => TFunction
  | CVOther v => typeof v
  end.

(** An owner's event listener, known by its identity only. *)
Definition listener : Type := nat.

Module props.
(** The props of [makeVTextFieldProps] the logic reads, with [active]
    of the field props and the [onClick:clear] listener. *)
Record t : Type := make {
  autofocus : bool;
  counter : value;
  counterValue : counterValueProp;
  persistentPlaceholder : bool;
  persistentCounter : bool;
  type : string;
  modelModifiers : option (gmap string bool);
  active : bool;
  onClick_clear : option listener;
}.
End props.

(** ** Derived computations *)

Definition activeTypes : list string :=
  ["color"; "file"; "time"; "date"; "datetime-local"; "week"; "month"].

(** [counterValue] (lines 71-75). *)
Definition counterValue (p : props.t) (model : modelValue) : completion Z :=
  match props.counterValue p with
  | CVFunction f => f model
  | CVMissing | CVOther _ => Normal (toString_length (nullish_or_empty model))
  end.

(** [max] (lines 76-86). *)
Definition max (attrs : gmap string value) (p : props.t) : value :=
  if truthy (prop attrs "maxlength") then prop attrs "maxlength"
  else if negb (truthy (props.counter p))
          || (negb (bool_decide (typeof (props.counter p) = TNumber))
              && negb (bool_decide (typeof (props.counter p) = TString)))
  then VUndefined
  else props.counter p.

(** [isActive] (lines 102-107); [focused] is [isFocused.value]. *)
Definition isActive (p : props.t) (focused : bool) : bool :=
  bool_decide (props.type p ∈ activeTypes)
  || props.persistentPlaceholder p
  || focused
  || props.active p.


(** ** The DOM, events and observable effects *)

(** An element handle: two handles are the same object iff they are equal. *)
Definition Element : Type := nat.

Module HTMLInputElement.
(** The state of an element the handlers read or assign.  The selection
    is a pair of indices on a text control, and [null], here [None], on
    an element the selection API does not apply to.  [focusable] tells
    whether [focus()] takes effect on the element (it does not on a
    disabled or detached one). *)
Record t : Type := make {
  value : string;
  selectionStart : option nat;
  selectionEnd : option nat;
  focusable : bool;
}.
End HTMLInputElement.

Module Event.
(** A DOM event: its identity and its [target] ([None] is [null]). *)
Record t : Type := make {
  id : nat;
  target : option Element;
}.
End Event.

Module IntersectionObserverEntry.
Record t : Type := make {
  target : option Element;
}.
End IntersectionObserverEntry.

(** The argument an emitted notification carries. *)
Inductive payload : Type :=
| PEvent (e : Event.t)
| PBool (b : bool)
| PModel (v : modelValue).

(** What a handler does that its surroundings can observe, in order. *)
Inductive effect : Type :=
| Emit (name : string) (arg : payload)
| FocusCall (el : Element)
| PreventDefault (e : Event.t)
| StopPropagation (e : Event.t)
| CallListener (l : listener) (e : Event.t)
| AssignSelectionStart (el : Element) (v : option nat)
| AssignSelectionEnd (el : Element) (v : option nat)
| UnhandledRejection (e : error).

(** The closures handed to [nextTick], with the variables they capture. *)
Inductive task : Type :=
| ClearTask (e : Event.t)
| RestoreCaret (el : Element) (caretPosition : option nat * option nat).

(** The elements' states, by handle. *)
Definition DOM : Type := Element -> HTMLInputElement.t.

(** A live subscription of the [v-intersect] directive. *)
Record subscription : Type := { once : bool }.

Record World : Type := {
  model : modelValue;
  isFocused : bool;
  inputRef : option Element;
  activeElement : option Element;
  dom : DOM;
  observer : option subscription;
  ticks : list task;
  trace : list effect;
}.

Definition with_model (v : modelValue) (w : World) : World :=
  {| model := v; isFocused := isFocused w; inputRef := inputRef w;
     activeElement := activeElement w; dom := dom w; observer := observer w;
     ticks := ticks w; trace := trace w |}.

Definition with_isFocused (b : bool) (w : World) : World :=
  {| model := model w; isFocused := b; inputRef := inputRef w;
     activeElement := activeElement w; dom := dom w; observer := observer w;
     ticks := ticks w; trace := trace w |}.

Definition with_activeElement (a : option Element) (w : World) : World :=
  {| model := model w; isFocused := isFocused w; inputRef := inputRef w;
     activeElement := a; dom := dom w; observer := observer w;
     ticks := ticks w; trace := trace w |}.

Definition with_dom (d : DOM) (w : World) : World :=
  {| model := model w; isFocused := isFocused w; inputRef := inputRef w;
     activeElement := activeElement w; dom := d; observer := observer w;
     ticks := ticks w; trace := trace w |}.

Definition with_observer (o : option subscription) (w : World) : World :=
  {| model := model w; isFocused := isFocused w; inputRef := inputRef w;
     activeElement := activeElement w; dom := dom w; observer := o;
     ticks := ticks w; trace := trace w |}.

Definition with_ticks (q : list task) (w : World) : World :=
  {| model := model w; isFocused := isFocused w; inputRef := inputRef w;
     activeElement := activeElement w; dom := dom w; observer := observer w;
     ticks := q; trace := trace w |}.

Definition with_trace (t : list effect) (w : World) : World :=
  {| model := model w; isFocused := isFocused w; inputRef := inputRef w;
     activeElement := activeElement w; dom := dom w; observer := observer w;
     ticks := ticks w; trace := t |}.

(** ** The monad of handlers: state, exceptions and fuel *)

Definition M (A : Type) : Type := World -> completion A * World.

#[global] Instance M_ret : MRet M := fun A a w => (Normal a, w).

#[global] Instance M_bind : MBind M := fun A B k m w =>
  match m w with
  | (Normal a, w') => k a w'
  | (Throw e, w') => (Throw e, w')
  | (OutOfFuel, w') => (OutOfFuel, w')
  end.

Definition get : M World := fun w => (Normal w, w).
Definition modify (f : World -> World) : M unit := fun w => (Normal tt, f w).
Definition throw {A : Type} (e : error) : M A := fun w => (Throw e, w).
Definition out_of_fuel {A : Type} : M A := fun w => (OutOfFuel, w).

Definition log (x : effect) : M unit :=
  modify (fun w => with_trace (trace w ++ [x]) w).

(** [emit(name, arg)] *)
Definition emit (name : string) (arg : payload) : M unit := log (Emit name arg).

(** [a === b] between two references, one of which may be [undefined] and
    the other [null]: true only for one and the same element. *)
Definition same_ref (a b : option Element) : bool :=
  match a, b with
  | Some x, Some y => bool_decide (x = y)
  | _, _ => false
  end.

(** Replaces the state of the element [el]. *)
Definition assign (el : Element)
    (f : HTMLInputElement.t -> HTMLInputElement.t) : M unit :=
  modify (fun w =>
    with_dom (fun x => if bool_decide (x = el) then f (dom w x) else dom w x) w).

(** "Set the selection range" of the HTML standard, on a text control:
    an index beyond the value's length points at its end, and an end that
    is not after the start places both at the end. *)
Definition set_selection_range (start finish : nat)
    (i : HTMLInputElement.t) : HTMLInputElement.t :=
  let len := String.length (HTMLInputElement.value i) in
  let s := Nat.min start len in
  let e := Nat.min finish len in
  HTMLInputElement.make (HTMLInputElement.value i)
    (Some (if (e <=? s)%nat then e else s)) (Some e)
    (HTMLInputElement.focusable i).

(** Whether the selection API applies to an element. *)
Definition selection_applies (i : HTMLInputElement.t) : bool :=
  match HTMLInputElement.selectionStart i with
  | Some _ => true
  | None => false
  end.

(** [el.selectionStart = v] and [el.selectionEnd = v], by the setters of
    the HTML standard.  The selection API applies to the text controls,
    whose [selectionStart] is a number; on another element, whose
    [selectionStart] is [null], the setters throw an InvalidStateError.
    [null] is given as 0.  The start's setter moves an end that is before
    the given start up to it. *)
Definition assign_selectionStart (el : Element) (v : option nat) : M unit :=
  log (AssignSelectionStart el v);;
  w ← get;
  match HTMLInputElement.selectionStart (dom w el) with
  | None => throw (DOMException "InvalidStateError")
  | Some _ =>
      let given := default 0%nat v in
      let finish := default 0%nat (HTMLInputElement.selectionEnd (dom w el)) in
      assign el
        (set_selection_range given (if (finish <? given)%nat then given else finish))
  end.

Definition assign_selectionEnd (el : Element) (v : option nat) : M unit :=
  log (AssignSelectionEnd el v);;
  w ← get;
  match HTMLInputElement.selectionStart (dom w el) with
  | None => throw (DOMException "InvalidStateError")
  | Some start => assign el (set_selection_range start (default 0%nat v))
  end.

(** [nextTick(fn)]: queue the closure behind those already waiting. *)
Definition nextTick (t : task) : M unit :=
  modify (fun w => with_ticks (ticks w ++ [t]) w).

(** ** Collaborators the component imports *)

(** Modelled from the spec: the Proxied Model, [useProxiedModel] of
    composables/proxiedModel, of which the component has the import only.
    Writing [model.value = v] updates the value and notifies the owner. *)
Definition model_write (v : modelValue) : M unit :=
  modify (with_model v);;
  emit "update:modelValue" (PModel v).

(** Modelled from the spec: the Focus Controller, [useFocus] of
    composables/focus, of which the component has the import only: a
    boolean focused state with the triggers [focus()] and [blur()], each
    change notified as [update:focused]. *)
Definition focus : M unit :=
  modify (with_isFocused true);;
  emit "update:focused" (PBool true).

Definition blur : M unit :=
  modify (with_isFocused false);;
  emit "update:focused" (PBool false).

(** Modelled from the spec: [callEvent] of the utilities, of which the
    component has the import only: the callback is invoked only if
    configured, otherwise skipped. *)
Definition callEvent (handler : option listener) (e : Event.t) : M unit :=
  match handler with
  | Some l => log (CallListener l e)
  | None => mret tt
  end.

(** The browser's [el.focus()].  On a focusable element that is not the
    active one it moves [document.activeElement] and dispatches [blur] to
    the element that loses focus and [focus] to [el]; the native input is
    the one element the component listens on ([onFocus] and [onBlur],
    lines 225-226), so the two listeners are run for it. *)
Definition HTMLElement_focus (onfocus onblur : M unit) (el : Element) : M unit :=
  log (FocusCall el);;
  w ← get;
  if HTMLInputElement.focusable (dom w el)
     && negb (bool_decide (activeElement w = Some el))
  then
    (if same_ref (activeElement w) (inputRef w) then onblur else mret tt);;
    modify (with_activeElement (Some el));;
    (if bool_decide (inputRef w = Some el) then onfocus else mret tt)
  else mret tt.

(** ** The handlers of [setup] *)

(** [onFocus] (lines 108-114).  [inputRef.value?.focus()] re-enters
    [onFocus] through the input's focus listener, hence the fuel. *)
Fixpoint onFocus_rec (fuel : nat) : M unit :=
  match fuel with
  | O => out_of_fuel
  | S fuel' =>
      w ← get;
      (if negb (same_ref (inputRef w) (activeElement w)) then
         match inputRef w with
         | Some el => HTMLElement_focus (onFocus_rec fuel') blur el
         | None => mret tt
         end
       else mret tt);;
      w' ← get;
      if negb (isFocused w') then focus else mret tt
  end.

(** Two levels are all the re-entrance there is (see [onFocus_rec_fuel]). *)
Definition onFocus : M unit := onFocus_rec 2.
#[global] Arguments onFocus : simpl never.

(** [onIntersect] (lines 90-97).  [entries[0]] is [undefined] on an empty
    array, and reading [.target] off it throws. *)
Definition onIntersect (p : props.t) (isIntersecting : bool)
    (entries : list IntersectionObserverEntry.t) : M unit :=
  if negb (props.autofocus p) || negb isIntersecting then mret tt
  else
    match entries with
    | [] => throw (TypeError "Cannot read properties of undefined (reading 'target')")
    | entry :: _ =>
        match IntersectionObserverEntry.target entry with
        | Some el => HTMLElement_focus onFocus blur el
        | None => mret tt
        end
    end.

(** [onControlMousedown] (lines 115-122). *)
Definition onControlMousedown (e : Event.t) : M unit :=
  emit "mousedown:control" (PEvent e);;
  w ← get;
  if same_ref (Event.target e) (inputRef w) then mret tt
  else
    onFocus;;
    log (PreventDefault e).

(** [onControlClick] (lines 123-127). *)
Definition onControlClick (e : Event.t) : M unit :=
  onFocus;;
  emit "click:control" (PEvent e).

(** [onClear] (lines 128-138). *)
Definition onClear (e : Event.t) : M unit :=
  log (StopPropagation e);;
  onFocus;;
  nextTick (ClearTask e).

(** [props.modelModifiers?.trim], as a condition. *)
Definition trim (p : props.t) : bool :=
  match props.modelModifiers p with
  | Some m => default false (m !! "trim")
  | None => false
  end.

(** [onInput] (lines 139-152).  [e.target] is [null] on an event that
    is not being dispatched; reading [.value] off it throws. *)
Definition onInput (p : props.t) (e : Event.t) : M unit :=
  match Event.target e with
  | None => throw (TypeError "Cannot read properties of null (reading 'value')")
  | Some el =>
      w ← get;
      model_write (MText (HTMLInputElement.value (dom w el)));;
      if trim p
         && bool_decide (props.type p ∈ ["text"; "search"; "password"; "tel"; "url"])
      then
        w' ← get;
        let caretPosition :=
          (HTMLInputElement.selectionStart (dom w' el),
           HTMLInputElement.selectionEnd (dom w' el)) in
        nextTick (RestoreCaret el caretPosition)
      else mret tt
  end.

(** The bodies of the closures handed to [nextTick] (lines 133-137 and
    147-150). *)
Definition run_task (p : props.t) (t : task) : M unit :=
  match t with
  | ClearTask e =>
      model_write MNull;;
      callEvent (props.onClick_clear p) e
  | RestoreCaret el caretPosition =>
      assign_selectionStart el (fst caretPosition);;
      assign_selectionEnd el (snd caretPosition)
  end.

(** Each continuation is a job of its own: one that throws is reported
    as an unhandled rejection, and does not keep the next ones from
    running. *)
Definition run_job (p : props.t) (t : task) : M unit := fun w =>
  match run_task p t w with
  | (Throw e, w') => log (UnhandledRejection e) w'
  | r => r
  end.

Fixpoint run_tasks (p : props.t) (ts : list task) : M unit :=
  match ts with
  | [] => mret tt
  | t :: ts' => run_job p t;; run_tasks p ts'
  end.

(** Modelled from the spec: the scheduler's tick, which belongs to the
    runtime behind [nextTick].  The pending reactive updates flush first:
    [render] is whatever the re-render and the owner's formatting do to
    the DOM; the deferred continuations then resume, in the order they
    were queued, each as a job of its own. *)
Definition flush (p : props.t) (render : DOM -> DOM) : M unit :=
  modify (fun w => with_dom (render (dom w)) w);;
  w ← get;
  modify (with_ticks []);;
  run_tasks p (ticks w).

(** ** The [v-intersect] directive on the native input *)

(** A directive binding of a rendered node: [[value, arg, modifiers]]. *)
Record binding : Type := {
  directive : string;
  handler : bool -> list IntersectionObserverEntry.t -> M unit;
  arg : option string;
  modifiers : list string;
}.

(** The directives of the [<input>] node (lines 215-217). *)
Definition input_directives (p : props.t) : list binding :=
  [ {| directive := "intersect"; handler := onIntersect p;
       arg := None; modifiers := ["once"] |} ].

(** Modelled from the spec: the visibility-detection directive,
    directives/intersect, of which the component has the import only.  Mounting
    it subscribes its handler; each visibility report is handed to the
    handler while the subscription lives; in fire-once mode the
    subscription is torn down after the first intersecting report. *)
Definition mount (b : binding) : M unit :=
  if bool_decide (directive b = "intersect")
  then modify (with_observer (Some {| once := bool_decide ("once" ∈ modifiers b) |}))
  else mret tt.

Definition report (b : binding) (isIntersecting : bool)
    (entries : list IntersectionObserverEntry.t) : M unit :=
  w ← get;
  match observer w with
  | Some s =>
      handler b isIntersecting entries;;
      if once s && isIntersecting then modify (with_observer None) else mret tt
  | None => mret tt
  end.

(** A visibility report: the intersecting flag and the observed entries. *)
Definition visibility : Type := bool * list IntersectionObserverEntry.t.

(** Mounting the input node, and the reports that reach it afterwards. *)
Fixpoint mount_all (bs : list binding) : M unit :=
  match bs with
  | [] => mret tt
  | b :: bs' => mount b;; mount_all bs'
  end.

Fixpoint report_all (bs : list binding) (v : visibility) : M unit :=
  match bs with
  | [] => mret tt
  | b :: bs' => report b (fst v) (snd v);; report_all bs' v
  end.

Fixpoint reports (p : props.t) (vs : list visibility) : M unit :=
  match vs with
  | [] => mret tt
  | v :: vs' => report_all (input_directives p) v;; reports p vs'
  end.

(** ** Observations on a trace *)

(** The elements [focus()] was called on, in order. *)
Definition focus_calls (t : list effect) : list Element :=
  omap (fun x => match x with FocusCall el => Some el | _ => None end) t.

(** The focus-state-changed notifications, in order. *)
Definition focused_updates (t : list effect) : list bool :=
  omap (fun x => match x with
                 | Emit name (PBool b) =>
                     if bool_decide (name = "update:focused") then Some b else None
                 | _ => None end) t.

(** The values the Model Value was notified to take, in order. *)
Definition model_updates (t : list effect) : list modelValue :=
  omap (fun x => match x with
                 | Emit name (PModel v) =>
                     if bool_decide (name = "update:modelValue") then Some v else None
                 | _ => None end) t.

(** The owner's listeners called, in order. *)
Definition listener_calls (t : list effect) : list (listener * Event.t) :=
  omap (fun x => match x with CallListener l e => Some (l, e) | _ => None end) t.

(** ** What a run of [onFocus] amounts to *)

(** The element [onFocus] calls [focus()] on: the native input, when it is
    mounted and is not the active element. *)
Definition focus_target (w : World) : option Element :=
  match inputRef w with
  | Some el => if same_ref (inputRef w) (activeElement w) then None else Some el
  | None => None
  end.

Definition onFocus_effects (w : World) : list effect :=
  match focus_target w with Some el => [FocusCall el] | None => [] end
  ++ (if isFocused w then [] else [Emit "update:focused" (PBool true)]).

Definition after_onFocus (w : World) : World :=
  {| model := model w; isFocused := true; inputRef := inputRef w;
     activeElement :=
       match focus_target w with
       | Some el =>
           if HTMLInputElement.focusable (dom w el) then Some el else activeElement w
       | None => activeElement w
       end;
     dom := dom w; observer := observer w; ticks := ticks w;
     trace := trace w ++ onFocus_effects w |}.

(** ** Sample inputs *)

Module Sample.

(** An autofocused text field with a counter of 10, the [trim] modifier
    and a clear listener. *)
Definition text_props : props.t :=
  props.make true (VNumber 10) CVMissing false false "text"
    (Some {[ "trim" := true ]}) false (Some 7%nat).

(** The same field as a date picker, and as a password field. *)
Definition date_props : props.t :=
  props.make false VUndefined CVMissing false false "date" None false None.

Definition password_props : props.t :=
  props.make false (VNumber 10) CVMissing false false "password"
    (Some {[ "trim" := true ]}) false None.

(** [counter="5"] *)
Definition counter5_props : props.t :=
  props.make false (VString "5") CVMissing false false "text" None false None.

(** [:counter="0"] *)
Definition counter0_props : props.t :=
  props.make false (VNumber 0) CVMissing false false "text" None false None.

(** [v => v.length * 2]; reading [.length] off [null] or [undefined] throws. *)
Definition double_length (v : modelValue) : completion Z :=
  match v with
  | MText s => Normal (toString_length s * 2)
  | MNull => Throw (TypeError "Cannot read properties of null (reading 'length')")
  | MUndefined => Throw (TypeError "Cannot read properties of undefined (reading 'length')")
  end.

(** [v => -1] *)
Definition minus_one (v : modelValue) : completion Z := Normal (-1).

Definition with_counterValue (c : counterValueProp) : props.t :=
  props.make false (VBool true) c false false "text" None false None.

End Sample.

Module SampleWorld.

(** The native input, and the field's clear icon. *)
Definition input : Element := 1%nat.
Definition clear_icon : Element := 2%nat.

(** The input after ["  hi  "] was typed into it, the caret at the end. *)
Definition typed : HTMLInputElement.t :=
  HTMLInputElement.make "  hi  " (Some 6%nat) (Some 6%nat) true.

(** A mounted, unfocused field. *)
Definition world : World :=
  {| model := MText ""; isFocused := false; inputRef := Some input;
     activeElement := None; dom := fun _ => typed; observer := None;
     ticks := []; trace := [] |}.

(** The same before the input is mounted, and once it has the focus. *)
Definition unmounted : World :=
  {| model := MText ""; isFocused := false; inputRef := None;
     activeElement := None; dom := fun _ => typed; observer := None;
     ticks := []; trace := [] |}.

Definition focused : World :=
  {| model := MText ""; isFocused := true; inputRef := Some input;
     activeElement := Some input; dom := fun _ => typed; observer := None;
     ticks := []; trace := [] |}.

(** A re-render that shows the owner's trimmed value, the caret reset to
    its end. *)
Definition trimming (d : DOM) : DOM := fun x =>
  if bool_decide (x = input)
  then HTMLInputElement.make "hi" (Some 2%nat) (Some 2%nat) true
  else d x.

(** The field with "secret" typed into its input. *)
Definition secret : World :=
  {| model := MText ""; isFocused := false; inputRef := Some input;
     activeElement := None;
     dom := fun _ => HTMLInputElement.make "secret" (Some 6%nat) (Some 6%nat) true;
     observer := None; ticks := []; trace := [] |}.

(** The input with the caret behind the first character. *)
Definition caret_at_1 : World :=
  {| model := MText ""; isFocused := false; inputRef := Some input;
     activeElement := None;
     dom := fun _ => HTMLInputElement.make "  hi  " (Some 1%nat) (Some 1%nat) true;
     observer := None; ticks := []; trace := [] |}.

(** A re-render that turns the input into a control without a selection. *)
Definition retyped (d : DOM) : DOM := fun x =>
  if bool_decide (x = input)
  then HTMLInputElement.make "" None None true
  else d x.

Definition input_event : Event.t := Event.make 1 (Some input).
Definition clear_click : Event.t := Event.make 2 (Some clear_icon).
Definition icon_mousedown : Event.t := Event.make 3 (Some clear_icon).
Definition input_mousedown : Event.t := Event.make 4 (Some input).

(** The observed input, as an intersection entry. *)
Definition entry : IntersectionObserverEntry.t :=
  IntersectionObserverEntry.make (Some input).

End SampleWorld.

(** ** The render function (lines 154-282) *)

Module slots.
(** The slots the owner passes: what [slots.counter], [slots.details] and
    [slots.default] test.  What a slot renders is the owner's. *)
Record t : Type := make {
  counter : bool;
  details : bool;
  default : bool;
}.
End slots.

Module decoration.
(** The props the render reads besides those of [props.t]: [prefix],
    [suffix] and [placeholder] of the text field's own, [name] of the
    input shell's, [variant] and [dirty] of the field chrome's.  An absent
    string prop is [undefined], here [None]. *)
Record t : Type := make {
  prefix : option string;
  suffix : option string;
  placeholder : option string;
  name : option string;
  variant : string;
  dirty : bool;
}.
End decoration.

Module scope.
(** What the input shell hands to its default slot (lines 182-188), each
    ref by its value; [isValid] is a boolean or [null]. *)
Record t : Type := make {
  id : string;
  isDisabled : bool;
  isDirty : bool;
  isReadonly : bool;
  isValid : option bool;
}.
End scope.

(** A string prop as a value, for the tests [p && ...] and [{ c: p }]. *)
Definition string_prop (s : option string) : value :=
  match s with
  | Some x => VString x
  | None => VUndefined
  end.

(** ToBoolean of the [counterValue] prop: a function is truthy. *)
Definition truthy_counterValueProp (c : counterValueProp) : bool :=
  match c with
  | CVMissing => false
  | CVFunction _ => true
  | CVOther v => truthy v
  end.

(** [hasCounter] and [hasDetails] (lines 155-156). *)
Definition hasCounter (s : slots.t) (p : props.t) : bool :=
  slots.counter s
  || truthy (props.counter p)
  || truthy_counterValueProp (props.counterValue p).

Definition hasDetails (s : slots.t) (p : props.t) : bool :=
  hasCounter s p || slots.details s.

(** [isPlainOrUnderlined] (line 88), the same test as on line 170. *)
Definition isPlainOrUnderlined (d : decoration.t) : bool :=
  bool_decide (decoration.variant d ∈ ["plain"; "underlined"]).

(** The attributes the [<input>] is given by name (lines 213-224), before
    the spreads of the slot's props and of the input attrs. *)
Record input_attributes : Type := {
  attr_value : modelValue;
  attr_autofocus : bool;
  attr_readonly : bool;
  attr_disabled : bool;
  attr_name : option string;
  attr_placeholder : option string;
  attr_size : Z;
  attr_type : string;
}.

(** The nodes the render builds.  [Omitted] is a child that is
    [undefined], [null] or [false]; [SlotNode] is what the owner's slot
    renders. *)
#[warnings="-register-all"]
Inductive vnode : Type :=
| Omitted
| TextNode (s : string)
| SpanNode (class : option string) (children : list vnode)
| DivNode (class : string) (data_no_activator : bool) (children : list vnode)
| InputNode (class : option string) (a : input_attributes)
| SlotNode (name : string)
| CounterNode (active : bool) (count : Z) (maximum : value) (default_slot : bool)
| FragmentNode (children : list vnode).

(** The class array of the root (lines 165-173), without [props.class]
    that follows it: a class of the object is kept when its condition is
    truthy. *)
Definition root_class (d : decoration.t) : list string :=
  "v-text-field"
  :: (if truthy (string_prop (decoration.prefix d))
      then ["v-text-field--prefixed"] else [])
  ++ (if truthy (string_prop (decoration.suffix d))
      then ["v-text-field--suffixed"] else [])
  ++ (if bool_decide (decoration.variant d ∈ ["plain"; "underlined"])
      then ["v-text-field--plain-underlined"] else []).

(** [centerAffix] of the root (line 177). *)
Definition centerAffix (d : decoration.t) : bool := negb (isPlainOrUnderlined d).

(** The flags the field chrome is given after the spread of its props
    (lines 198-203). *)
Record field_flags : Type := {
  flag_id : string;
  flag_active : bool;
  flag_dirty : bool;
  flag_disabled : bool;
  flag_focused : bool;
  flag_error : bool;
}.

Definition VField_flags (p : props.t) (d : decoration.t) (focused : bool)
    (sc : scope.t) : field_flags :=
  {| flag_id := scope.id sc;
     flag_active := isActive p focused || scope.isDirty sc;
     flag_dirty := scope.isDirty sc || decoration.dirty d;
     flag_disabled := scope.isDisabled sc;
     flag_focused := focused;
     flag_error := bool_decide (scope.isValid sc = Some false) |}.

(** [inputNode] (lines 210-230); [class] is what [cloneVNode] adds. *)
Definition inputNode (p : props.t) (d : decoration.t) (sc : scope.t)
    (m : modelValue) (class : option string) : vnode :=
  InputNode class
    {| attr_value := m;
       attr_autofocus := props.autofocus p;
       attr_readonly := scope.isReadonly sc;
       attr_disabled := scope.isDisabled sc;
       attr_name := decoration.name d;
       attr_placeholder := decoration.placeholder d;
       attr_size := 1;
       attr_type := props.type p |}.

(** [props.prefix && <span class=...>{ props.prefix }</span>] and the
    same for the suffix: the span, or the falsy prop itself as the child. *)
Definition affix (class : string) (text : option string) : vnode :=
  match text with
  | None => Omitted
  | Some s =>
      if truthy (VString s) then SpanNode (Some class) [TextNode s]
      else TextNode s
  end.

(** The content slot of the field chrome (lines 207-257); [fieldClass] is
    the class the chrome computes for its content. *)
Definition field_content (s : slots.t) (p : props.t) (d : decoration.t)
    (sc : scope.t) (m : modelValue) (fieldClass : string) : vnode :=
  FragmentNode
    [ affix "v-text-field__prefix" (decoration.prefix d);
      (if slots.default s
       then DivNode fieldClass true [SlotNode "default"; inputNode p d sc m None]
       else inputNode p d sc m (Some fieldClass));
      affix "v-text-field__suffix" (decoration.suffix d) ].

(** The details slot (lines 261-278): [undefined] without details, else
    the function's result; reading [counterValue.value] runs the counting
    function, which may throw. *)
Definition details_slot (s : slots.t) (p : props.t) (attrs : gmap string value)
    (focused : bool) (m : modelValue) : option (completion vnode) :=
  if hasDetails s p then
    Some
      (let owners := if slots.details s then SlotNode "details" else Omitted in
       if hasCounter s p then
         match counterValue p m with
         | Normal n =>
             Normal
               (FragmentNode
                  [ owners;
                    FragmentNode
                      [ SpanNode None [];
                        CounterNode (props.persistentCounter p || focused) n
                          (max attrs p) (slots.counter s) ] ])
         | Throw e => Throw e
         | OutOfFuel => OutOfFuel
         end
       else Normal (FragmentNode [owners; Omitted]))
  else None.

(** ** Observations on a rendered tree *)

(** The nodes of a tree in document order. *)
Fixpoint flatten (v : vnode) : list vnode :=
  v :: match v with
       | SpanNode _ cs | DivNode _ _ cs | FragmentNode cs =>
           (fix go (l : list vnode) : list vnode :=
              match l with
              | [] => []
              | c :: l' => flatten c ++ go l'
              end) cs
       | Omitted | TextNode _ | InputNode _ _ | SlotNode _ | CounterNode _ _ _ _ => []
       end.

(** The elements and slots of a tree in document order, by tag. *)
Definition tag (v : vnode) : option string :=
  match v with
  | SpanNode (Some c) _ => Some ("span." +:+ c)
  | SpanNode None _ => Some "span"
  | DivNode _ _ _ => Some "div"
  | InputNode _ _ => Some "input"
  | SlotNode n => Some ("slot:" +:+ n)
  | CounterNode _ _ _ _ => Some "VCounter"
  | Omitted | TextNode _ | FragmentNode _ => None
  end.

Definition outline (v : vnode) : list string := omap tag (flatten v).

(** The native inputs of a tree, each with the class [cloneVNode] gave it. *)
Definition native_inputs (v : vnode) : list (option string) :=
  omap (fun x => match x with InputNode c _ => Some c | _ => None end) (flatten v).

(** The counters of a tree: active flag, count and maximum. *)
Definition counters (v : vnode) : list (bool * Z * value) :=
  omap (fun x => match x with
                 | CounterNode a n mx _ => Some (a, n, mx)
                 | _ => None end) (flatten v).

(** The wrapper divisions of a tree: class and [data-no-activator]. *)
Definition wrappers (v : vnode) : list (string * bool) :=
  omap (fun x => match x with DivNode c a _ => Some (c, a) | _ => None end) (flatten v).

(** Whether a tree holds a span of the given class. *)
Definition has_span (class : string) (v : vnode) : bool :=
  bool_decide (("span." +:+ class) ∈ outline v).

Module SampleRender.

(** No slot passed. *)
Definition no_slots : slots.t := slots.make false false false.

(** A filled field with the prefix "$". *)
Definition priced : decoration.t :=
  decoration.make (Some "$") None None None "filled" false.

(** A field with nothing typed, as the input shell describes it. *)
Definition pristine : scope.t := scope.make "input-1" false false false None.

End SampleRender.

(** * Theorems *)

(** Unfolds the monad's operations in the goal. *)
Ltac run :=
  repeat (unfold mbind, mret, M_bind, M_ret, get, modify, throw, out_of_fuel,
            log, emit, nextTick, focus, blur, model_write, callEvent,
            with_model, with_isFocused, with_activeElement, with_dom,
            with_observer, with_ticks, with_trace; cbn).

Section OnFocus.

(** [undefined] and [null] are no element, and differ from each other. *)
Lemma same_ref_absent (a : option Element) :
  same_ref None a = false ∧ same_ref a None = false.
Proof. by destruct a. Qed.

(** With two units of fuel or more, [onFocus] returns, and what it does
    does not depend on the fuel. *)
Lemma onFocus_rec_fuel (n : nat) (w : World) :
  onFocus_rec (S (S n)) w = (Normal tt, after_onFocus w).
Proof.
  destruct w as [m f i a d o q t].
  unfold after_onFocus, onFocus_effects, focus_target.
  cbn [onFocus_rec]. unfold HTMLElement_focus. run.
  destruct i as [el|], a as [ac|], f; cbn;
    repeat (case_bool_decide; simplify_eq; cbn);
    try destruct (HTMLInputElement.focusable (d el)); cbn;
    repeat (case_bool_decide; simplify_eq; cbn);
    rewrite <- ?app_assoc, ?app_nil_r; try reflexivity.
Qed.

Lemma onFocus_run (w : World) : onFocus w = (Normal tt, after_onFocus w).
Proof. apply (onFocus_rec_fuel 0). Qed.

End OnFocus.

(** ** The derived computations *)

Section Derived.

Lemma activeTypes_eq :
  activeTypes = ["color"; "file"; "time"; "date"; "datetime-local"; "week"; "month"].
Proof. reflexivity. Qed.

(** C1. The field is active for every entry type among color, file, time,
    date, datetime-local, week and month, whatever the focus, the
    persistent placeholder and the override; for every other entry type
    it is active exactly when the persistent placeholder is set, or the
    field is focused, or the [active] override is set. *)
Theorem isActive_resolution (p : props.t) (focused : bool) :
  (props.type p ∈ ["color"; "file"; "time"; "date"; "datetime-local"; "week"; "month"] →
   isActive p focused = true) ∧
  (props.type p ∉ ["color"; "file"; "time"; "date"; "datetime-local"; "week"; "month"] →
   (isActive p focused = true ↔
    props.persistentPlaceholder p = true ∨ focused = true ∨ props.active p = true)).
Proof.
  rewrite <- activeTypes_eq. unfold isActive. split; intros H.
  - by rewrite bool_decide_eq_true_2.
  - rewrite bool_decide_eq_false_2 by done. cbn.
    rewrite !orb_true_iff. tauto.
Qed.

Lemma isActive_resolution_witness :
  isActive Sample.date_props false = true ∧
  (isActive Sample.password_props false = true ↔
   props.persistentPlaceholder Sample.password_props = true
   ∨ false = true ∨ props.active Sample.password_props = true).
Proof.
  split.
  - apply (proj1 (isActive_resolution Sample.date_props false)).
    apply (bool_decide_unpack _). vm_compute. exact I.
  - apply (proj2 (isActive_resolution Sample.password_props false)).
    apply (bool_decide_unpack _). vm_compute. exact I.
Defined.

(** The end-to-end scenario's last step: a password field that has lost
    the focus is not active. *)
Example isActive_password_blurred : isActive Sample.password_props false = false.
Proof. reflexivity. Qed.

(** The string form whose length is counted when no counting function is
    configured. *)
Lemma counterValue_by_length (p : props.t) (m : modelValue) :
  typeof_counterValueProp (props.counterValue p) ≠ TFunction →
  counterValue p m =
    Normal (Z.of_nat (String.length
                        match m with MText s => s | MNull | MUndefined => "" end)).
Proof.
  unfold counterValue, toString_length.
  destruct (props.counterValue p); cbn; [| congruence |]; by destruct m.
Qed.

(** C6, as stated, fails: with the counting function [v => -1] configured
    the count is -1, so no count that is at least 0 is produced. *)
Lemma counterValue_negative_counterexample :
  ¬ (∃ n : Z,
       counterValue (Sample.with_counterValue (CVFunction Sample.minus_one))
         (MText "hello") = Normal n
       ∧ 0 ≤ n).
Proof. intros (n & H & Hn). cbn in H. injection H as <-. lia. Qed.

(** C6, amended.  When a counting function is configured the count is
    whatever that function yields on the Model Value; otherwise it is the
    length of the Model Value's string form, [null] and [undefined]
    counting as the empty string, and that count is always produced and is
    at least 0. *)
Theorem counterValue_resolution (p : props.t) (m : modelValue) :
  (∀ f, props.counterValue p = CVFunction f → counterValue p m = f m) ∧
  (typeof_counterValueProp (props.counterValue p) ≠ TFunction →
   ∃ n : Z,
     counterValue p m = Normal n
     ∧ n = Z.of_nat (String.length
                       match m with MText s => s | MNull | MUndefined => "" end)
     ∧ 0 ≤ n).
Proof.
  split.
  - intros f Hf. unfold counterValue. by rewrite Hf.
  - intros H. eexists. split; [by apply counterValue_by_length|].
    split; [reflexivity | lia].
Qed.

Lemma counterValue_resolution_witness :
  counterValue (Sample.with_counterValue (CVFunction Sample.double_length))
    (MText "hello") = Normal 10
  ∧ ∃ n : Z,
      counterValue Sample.text_props (MText "hello") = Normal n
      ∧ n = 5 ∧ 0 ≤ n.
Proof.
  split.
  - exact (proj1 (counterValue_resolution
                    (Sample.with_counterValue (CVFunction Sample.double_length))
                    (MText "hello")) Sample.double_length eq_refl).
  - apply (proj2 (counterValue_resolution Sample.text_props (MText "hello"))).
    cbn. discriminate.
Defined.

(** A cleared field counts 0; the counting function of the example has no
    count for it. *)
Example counterValue_null : counterValue Sample.text_props MNull = Normal 0.
Proof. reflexivity. Qed.

Example counterValue_double_length_null :
  counterValue (Sample.with_counterValue (CVFunction Sample.double_length)) MNull
  = Throw (TypeError "Cannot read properties of null (reading 'length')").
Proof. reflexivity. Qed.

(** C4, as stated, fails: [maxlength] is present, with the value 0, and
    the maximum is the counter's "5". *)
Lemma max_maxlength_zero_counterexample :
  ({[ "maxlength" := VNumber 0 ]} : gmap string value) !! "maxlength" = Some (VNumber 0)
  ∧ max {[ "maxlength" := VNumber 0 ]} Sample.counter5_props = VString "5"
  ∧ max {[ "maxlength" := VNumber 0 ]} Sample.counter5_props ≠ VNumber 0.
Proof. split; [reflexivity|]. split; [reflexivity|]. vm_compute. discriminate. Qed.

(** The counter option fares the same: the number 0 gives no maximum. *)
Example max_counter_zero : max ∅ Sample.counter0_props = VUndefined.
Proof. reflexivity. Qed.

(** C4, amended.  A truthy [maxlength] attribute is the maximum, before
    the counter option; otherwise a truthy counter option that is a number
    or a string is the maximum, verbatim; otherwise there is none. *)
Theorem max_resolution (attrs : gmap string value) (p : props.t) :
  (truthy (prop attrs "maxlength") = true → max attrs p = prop attrs "maxlength") ∧
  (truthy (prop attrs "maxlength") = false →
   typeof (props.counter p) = TNumber ∨ typeof (props.counter p) = TString →
   truthy (props.counter p) = true →
   max attrs p = props.counter p) ∧
  (truthy (prop attrs "maxlength") = false →
   ¬ ((typeof (props.counter p) = TNumber ∨ typeof (props.counter p) = TString)
      ∧ truthy (props.counter p) = true) →
   max attrs p = VUndefined).
Proof.
  unfold max. repeat split.
  - by intros ->.
  - intros -> Hty ->. cbn.
    destruct Hty as [Hty|Hty]; rewrite Hty; by repeat case_bool_decide.
  - intros -> Hn.
    destruct (truthy (props.counter p)) eqn:Ht; cbn; [|done].
    repeat case_bool_decide; cbn; try done; exfalso; apply Hn; auto.
Qed.

Lemma max_resolution_witness :
  max {[ "maxlength" := VString "20" ]} Sample.counter5_props = VString "20"
  ∧ max ∅ Sample.counter5_props = VString "5"
  ∧ max ∅ Sample.date_props = VUndefined.
Proof.
  split; [|split].
  - etrans;
      [apply (proj1 (max_resolution {[ "maxlength" := VString "20" ]}
                       Sample.counter5_props))|];
      reflexivity.
  - apply (proj1 (proj2 (max_resolution ∅ Sample.counter5_props)));
      [reflexivity | right; reflexivity | reflexivity].
  - apply (proj2 (proj2 (max_resolution ∅ Sample.date_props))); [reflexivity|].
    intros [_ H]. discriminate H.
Defined.

End Derived.

(** ** Focus acquisition *)

Section Focus.

Lemma focus_calls_app (t u : list effect) :
  focus_calls (t ++ u) = focus_calls t ++ focus_calls u.
Proof. apply omap_app. Qed.

Lemma focused_updates_app (t u : list effect) :
  focused_updates (t ++ u) = focused_updates t ++ focused_updates u.
Proof. apply omap_app. Qed.

Lemma model_updates_app (t u : list effect) :
  model_updates (t ++ u) = model_updates t ++ model_updates u.
Proof. apply omap_app. Qed.

Lemma listener_calls_app (t u : list effect) :
  listener_calls (t ++ u) = listener_calls t ++ listener_calls u.
Proof. apply omap_app. Qed.

(** [onFocus] calls [focus()] on the native input at most, notifies a
    change of the focused state only when there is one, and touches
    neither the Model Value nor the owner's listeners. *)
Lemma onFocus_effects_focus_calls (w : World) :
  focus_calls (onFocus_effects w) =
    match focus_target w with Some el => [el] | None => [] end.
Proof.
  unfold onFocus_effects. rewrite focus_calls_app.
  destruct (focus_target w), (isFocused w); reflexivity.
Qed.

Lemma onFocus_effects_focused_updates (w : World) :
  focused_updates (onFocus_effects w) = if isFocused w then [] else [true].
Proof.
  unfold onFocus_effects. rewrite focused_updates_app.
  destruct (focus_target w), (isFocused w); reflexivity.
Qed.

Lemma onFocus_effects_model_updates (w : World) :
  model_updates (onFocus_effects w) = [].
Proof.
  unfold onFocus_effects. rewrite model_updates_app.
  destruct (focus_target w), (isFocused w); reflexivity.
Qed.

Lemma onFocus_effects_listener_calls (w : World) :
  listener_calls (onFocus_effects w) = [].
Proof.
  unfold onFocus_effects. rewrite listener_calls_app.
  destruct (focus_target w), (isFocused w); reflexivity.
Qed.

(** C8. Without a native input element ([inputRef.value] is [undefined])
    the focus routine returns normally and calls [focus()] on no element:
    the active element stays what it was, and the one thing the routine
    may do is raise the focused flag, with its notification. *)
Theorem onFocus_without_input (w : World) :
  inputRef w = None →
  ∃ w' : World,
    onFocus w = (Normal tt, w')
    ∧ focus_calls (trace w') = focus_calls (trace w)
    ∧ activeElement w' = activeElement w
    ∧ dom w' = dom w
    ∧ trace w' =
        trace w ++ (if isFocused w then [] else [Emit "update:focused" (PBool true)]).
Proof.
  intros Hi. exists (after_onFocus w). split; [apply onFocus_run|].
  unfold after_onFocus, onFocus_effects, focus_target. rewrite Hi. cbn.
  repeat split. rewrite focus_calls_app.
  destruct (isFocused w); cbn; by rewrite app_nil_r.
Qed.

Lemma onFocus_without_input_witness :
  ∃ w' : World,
    onFocus SampleWorld.unmounted = (Normal tt, w')
    ∧ focus_calls (trace w') = []
    ∧ activeElement w' = None
    ∧ dom w' = dom SampleWorld.unmounted
    ∧ trace w' = [Emit "update:focused" (PBool true)].
Proof. exact (onFocus_without_input SampleWorld.unmounted eq_refl). Defined.

(** C10. The focus routine triggers the controller's [focus()] only when
    the focused flag is false: run on a focused field it leaves the flag
    set and notifies nothing; run on an unfocused one it sets the flag and
    notifies once; so a second run in a row never notifies. *)
Theorem onFocus_idempotent (w : World) :
  ∃ w' : World,
    onFocus w = (Normal tt, w')
    ∧ isFocused w' = true
    ∧ (isFocused w = true → focused_updates (trace w') = focused_updates (trace w))
    ∧ (isFocused w = false →
       focused_updates (trace w') = focused_updates (trace w) ++ [true])
    ∧ ∃ w'' : World,
        onFocus w' = (Normal tt, w'')
        ∧ isFocused w'' = true
        ∧ focused_updates (trace w'') = focused_updates (trace w').
Proof.
  exists (after_onFocus w). split; [apply onFocus_run|].
  split; [reflexivity|]. cbn.
  rewrite focused_updates_app, onFocus_effects_focused_updates.
  split; [intros ->; by rewrite app_nil_r|].
  split; [by intros ->|].
  exists (after_onFocus (after_onFocus w)). split; [apply onFocus_run|].
  split; [reflexivity|]. cbn.
  rewrite !focused_updates_app, !onFocus_effects_focused_updates. cbn.
  by rewrite app_nil_r.
Qed.

Lemma onFocus_idempotent_witness :
  ∃ w' : World,
    onFocus SampleWorld.focused = (Normal tt, w')
    ∧ isFocused w' = true
    ∧ focused_updates (trace w') = [].
Proof.
  destruct (onFocus_idempotent SampleWorld.focused) as (w' & Hrun & Hf & Hsame & _).
  exists w'. split; [exact Hrun|]. split; [exact Hf|].
  exact (Hsame eq_refl).
Defined.

End Focus.

(** ** The control's mouse handlers *)

Section Control.

(** C9. A mousedown on the control is notified first, as
    [mousedown:control].  When its target is the native input the handler
    stops there: nothing is focused and the default action stands.
    Otherwise the handler runs the focus routine, which leaves the field
    focused, and then prevents the event's default action. *)
Theorem onControlMousedown_order (e : Event.t) (w : World) :
  ∃ (w' : World) (rest : list effect),
    onControlMousedown e w = (Normal tt, w')
    ∧ trace w' = trace w ++ Emit "mousedown:control" (PEvent e) :: rest
    ∧ (PreventDefault e ∈ rest ↔ same_ref (Event.target e) (inputRef w) = false)
    ∧ (same_ref (Event.target e) (inputRef w) = true →
       rest = []
       ∧ isFocused w' = isFocused w
       ∧ activeElement w' = activeElement w)
    ∧ (same_ref (Event.target e) (inputRef w) = false →
       rest = onFocus_effects w ++ [PreventDefault e]
       ∧ isFocused w' = true
       ∧ focus_calls rest = match focus_target w with Some el => [el] | None => [] end).
Proof.
  unfold onControlMousedown. run.
  destruct (same_ref (Event.target e) (inputRef w)) eqn:Hs.
  - eexists _, []. split; [reflexivity|]. cbn.
    split; [reflexivity|]. split; [|split; [done|discriminate]].
    split; [intros H; by apply elem_of_nil in H|discriminate].
  - rewrite onFocus_run. cbn.
    eexists _, (onFocus_effects w ++ [PreventDefault e]).
    split; [reflexivity|]. cbn.
    split.
    { unfold onFocus_effects, focus_target. cbn.
      by rewrite <- !app_assoc. }
    split; [split; [done|]; intros _; set_solver|].
    split; [discriminate|]. intros _.
    split; [reflexivity|]. split; [reflexivity|].
    rewrite focus_calls_app, onFocus_effects_focus_calls. cbn.
    by rewrite app_nil_r.
Qed.

Lemma onControlMousedown_order_witness :
  (∃ w' : World,
     onControlMousedown SampleWorld.input_mousedown SampleWorld.world = (Normal tt, w')
     ∧ trace w' = [Emit "mousedown:control" (PEvent SampleWorld.input_mousedown)]
     ∧ isFocused w' = false)
  ∧ (∃ w' : World,
       onControlMousedown SampleWorld.icon_mousedown SampleWorld.world = (Normal tt, w')
       ∧ trace w' = [Emit "mousedown:control" (PEvent SampleWorld.icon_mousedown);
                     FocusCall SampleWorld.input;
                     Emit "update:focused" (PBool true);
                     PreventDefault SampleWorld.icon_mousedown]
       ∧ isFocused w' = true).
Proof.
  split.
  - destruct (onControlMousedown_order SampleWorld.input_mousedown SampleWorld.world)
      as (w' & rest & Hrun & Ht & _ & Hin & _).
    destruct (Hin eq_refl) as (-> & Hf & _).
    exists w'. split; [exact Hrun|]. split; [exact Ht | exact Hf].
  - destruct (onControlMousedown_order SampleWorld.icon_mousedown SampleWorld.world)
      as (w' & rest & Hrun & Ht & _ & _ & Hout).
    destruct (Hout eq_refl) as (-> & Hf & _).
    exists w'. split; [exact Hrun|]. split; [exact Ht | exact Hf].
Defined.

(** A click on the control runs the focus routine, then notifies. *)
Lemma onControlClick_run (e : Event.t) (w : World) :
  ∃ w' : World,
    onControlClick e w = (Normal tt, w')
    ∧ isFocused w' = true
    ∧ trace w' = trace w ++ onFocus_effects w ++ [Emit "click:control" (PEvent e)].
Proof.
  unfold onControlClick. run. rewrite onFocus_run. cbn.
  eexists. split; [reflexivity|]. split; [reflexivity|]. by rewrite <- app_assoc.
Qed.

End Control.

(** ** Deferred continuations *)

Section Deferred.

Variable p : props.t.

(** Where the two setters, the start's and then the end's, leave the
    start of the selection of a control of length [L] whose end was [b]. *)
Lemma caret_arith (s n b L : nat) :
  let finish := if (b <? s)%nat then s else b in
  let s1 := Nat.min s L in
  let e1 := Nat.min finish L in
  let start1 := if (e1 <=? s1)%nat then e1 else s1 in
  let s2 := Nat.min start1 L in
  let e2 := Nat.min n L in
  (if (e2 <=? s2)%nat then e2 else s2) = Nat.min (Nat.min s n) L.
Proof.
  cbv zeta.
  assert ((if (Nat.min (if (b <? s)%nat then s else b) L <=? Nat.min s L)%nat
           then Nat.min (if (b <? s)%nat then s else b) L
           else Nat.min s L) = Nat.min s L) as ->.
  { destruct (Nat.ltb_spec b s);
      match goal with
      | |- context [(?x <=? ?y)%nat] => destruct (Nat.leb_spec x y)
      end; lia. }
  match goal with
  | |- context [(?x <=? ?y)%nat] => destruct (Nat.leb_spec x y)
  end; lia.
Qed.

(** A restored caret on a text control: the indices assigned, and where
    the selection ends up. *)
Lemma restore_caret_run (el : Element) (s n : option nat) (a : nat) (w : World) :
  HTMLInputElement.selectionStart (dom w el) = Some a →
  ∃ w' : World,
    run_job p (RestoreCaret el (s, n)) w = (Normal tt, w')
    ∧ dom w' el
      = HTMLInputElement.make (HTMLInputElement.value (dom w el))
          (Some (Nat.min (Nat.min (default 0%nat s) (default 0%nat n))
                   (String.length (HTMLInputElement.value (dom w el)))))
          (Some (Nat.min (default 0%nat n)
                   (String.length (HTMLInputElement.value (dom w el)))))
          (HTMLInputElement.focusable (dom w el))
    ∧ (∀ x, x ≠ el → dom w' x = dom w x)
    ∧ isFocused w' = isFocused w
    ∧ ticks w' = ticks w
    ∧ trace w' = trace w ++ [AssignSelectionStart el s; AssignSelectionEnd el n].
Proof.
  intros Ha.
  unfold run_job, run_task, assign_selectionStart, assign_selectionEnd, assign,
    mbind, M_bind, mret, M_ret, get, modify, log, with_dom, with_trace.
  cbn -[Nat.leb Nat.ltb Nat.min String.length]. rewrite Ha.
  cbn -[Nat.leb Nat.ltb Nat.min String.length].
  rewrite !bool_decide_eq_true_2 by done.
  cbn -[Nat.leb Nat.ltb Nat.min String.length].
  eexists. split; [reflexivity|].
  cbn -[Nat.leb Nat.ltb Nat.min String.length].
  rewrite !bool_decide_eq_true_2 by done.
  split.
  { unfold set_selection_range.
    cbn -[Nat.leb Nat.ltb Nat.min String.length].
    by rewrite caret_arith. }
  split.
  { intros x Hx. by rewrite !bool_decide_eq_false_2. }
  repeat split. by rewrite <- app_assoc.
Qed.

(** A continuation's job returns, and leaves the focus, the queue, the
    elements' values and what the selection API applies to as they are. *)
Lemma run_job_normal (t : task) (w : World) :
  ∃ w' : World,
    run_job p t w = (Normal tt, w')
    ∧ isFocused w' = isFocused w
    ∧ ticks w' = ticks w
    ∧ (∀ x, HTMLInputElement.value (dom w' x) = HTMLInputElement.value (dom w x))
    ∧ (∀ x, selection_applies (dom w' x) = selection_applies (dom w x))
    ∧ ∃ fx, trace w' = trace w ++ fx.
Proof.
  destruct t as [e | el [s n]].
  - unfold run_job. cbn. run.
    destruct (props.onClick_clear p); cbn; eexists;
      (split; [reflexivity|]); cbn; repeat split;
      rewrite <- ?app_assoc; eauto using app_nil_r.
  - destruct (HTMLInputElement.selectionStart (dom w el)) as [a|] eqn:Ha.
    + destruct (restore_caret_run el s n a w Ha)
        as (w' & Hrun & Hel & Hother & Hf & Hq & Ht).
      exists w'. split; [exact Hrun|]. split; [exact Hf|]. split; [exact Hq|].
      split; [|split; [|eauto]]; intros x;
        (destruct (decide (x = el)) as [->|Hx];
         [rewrite Hel; unfold selection_applies; by rewrite ?Ha
         | by rewrite (Hother x Hx)]).
    + unfold run_job, run_task, assign_selectionStart. run. rewrite Ha. cbn.
      eexists. split; [reflexivity|]. cbn. repeat split.
      rewrite <- app_assoc. eauto.
Qed.

Lemma run_tasks_normal (ts : list task) (w : World) :
  ∃ w' : World,
    run_tasks p ts w = (Normal tt, w')
    ∧ isFocused w' = isFocused w
    ∧ ticks w' = ticks w
    ∧ (∀ x, HTMLInputElement.value (dom w' x) = HTMLInputElement.value (dom w x))
    ∧ (∀ x, selection_applies (dom w' x) = selection_applies (dom w x))
    ∧ ∃ fx, trace w' = trace w ++ fx.
Proof.
  revert w. induction ts as [|t ts IH]; intros w; cbn.
  - exists w. repeat split. exists []. by rewrite app_nil_r.
  - destruct (run_job_normal t w) as (w1 & H1 & Hf1 & Hq1 & Hv1 & Hs1 & fx1 & Ht1).
    destruct (IH w1) as (w2 & H2 & Hf2 & Hq2 & Hv2 & Hs2 & fx2 & Ht2).
    exists w2. unfold mbind, M_bind. rewrite H1, H2.
    split; [reflexivity|]. split; [congruence|]. split; [congruence|].
    split; [intros x; by rewrite Hv2, Hv1|].
    split; [intros x; by rewrite Hs2, Hs1|].
    exists (fx1 ++ fx2). by rewrite Ht2, Ht1, app_assoc.
Qed.

(** The queue runs in order: what was queued last runs last. *)
Lemma run_tasks_snoc (ts : list task) (t : task) (w : World) :
  ∃ w1 w2 : World,
    run_tasks p ts w = (Normal tt, w1)
    ∧ run_job p t w1 = (Normal tt, w2)
    ∧ run_tasks p (ts ++ [t]) w = (Normal tt, w2).
Proof.
  revert w. induction ts as [|t0 ts IH]; intros w; cbn.
  - destruct (run_job_normal t w) as (w2 & H2 & _).
    exists w, w2. unfold mbind, M_bind. rewrite H2. by repeat split.
  - destruct (run_job_normal t0 w) as (w0 & H0 & _).
    destruct (IH w0) as (w1 & w2 & H1 & H2 & H12).
    exists w1, w2. unfold mbind, M_bind. rewrite H0. by repeat split.
Qed.

(** C5. A click on the clear control stops the event's propagation and
    runs the focus routine at once, so the field is focused when the
    handler returns; the Model Value is not written and the clear callback
    is not called within the call: the closure that does both is queued
    for the next tick.  When the tick comes the Model Value becomes
    [null], the callback is called if one is configured, and the field is
    still focused. *)
Theorem onClear_deferred (e : Event.t) (w : World) :
  ∃ w1 : World,
    onClear e w = (Normal tt, w1)
    ∧ trace w1 = trace w ++ StopPropagation e :: onFocus_effects w
    ∧ isFocused w1 = true
    ∧ model w1 = model w
    ∧ model_updates (trace w1) = model_updates (trace w)
    ∧ listener_calls (trace w1) = listener_calls (trace w)
    ∧ ticks w1 = ticks w ++ [ClearTask e]
    ∧ ∀ render, ∃ (w2 : World) (before : list effect),
        flush p render w1 = (Normal tt, w2)
        ∧ model w2 = MNull
        ∧ isFocused w2 = true
        ∧ ticks w2 = []
        ∧ trace w2 =
            trace w1 ++ before
            ++ Emit "update:modelValue" (PModel MNull)
               :: match props.onClick_clear p with
                  | Some l => [CallListener l e]
                  | None => []
                  end.
Proof.
  unfold onClear. run. rewrite onFocus_run. cbn.
  eexists. split; [reflexivity|]. cbn.
  split. { unfold onFocus_effects, focus_target. cbn. by rewrite <- app_assoc. }
  split; [reflexivity|]. split; [reflexivity|].
  split.
  { rewrite <- app_assoc, !model_updates_app. cbn.
    change (model_updates (onFocus_effects ?x))
      with (model_updates (onFocus_effects w)).
    by rewrite onFocus_effects_model_updates, !app_nil_r. }
  split.
  { rewrite <- app_assoc, !listener_calls_app. cbn.
    change (listener_calls (onFocus_effects ?x))
      with (listener_calls (onFocus_effects w)).
    by rewrite onFocus_effects_listener_calls, !app_nil_r. }
  split; [reflexivity|].
  intros render. unfold flush. run.
  match goal with |- context [run_tasks p (?q ++ [?t]) ?w0] =>
    destruct (run_tasks_snoc q t w0) as (wa & wb & Ha & Hb & Hab);
    destruct (run_tasks_normal q w0) as (wa' & Ha' & Hfa & Hqa & _ & _ & fx & Hta)
  end.
  rewrite Ha in Ha'. injection Ha' as <-.
  rewrite Hab. unfold run_job in Hb. cbn in Hb. revert Hb. run. intros Hb.
  exists wb, fx. split; [reflexivity|].
  destruct (props.onClick_clear p); cbn in Hb; injection Hb as <-; cbn;
    rewrite Hfa, Hqa, Hta; cbn; rewrite <- ?app_assoc; by repeat split.
Qed.

End Deferred.

(** ** The input handler *)

Section Input.

Variable p : props.t.

(** The condition under which [onInput] preserves the caret. *)
Let preserving : bool :=
  trim p && bool_decide (props.type p ∈ ["text"; "search"; "password"; "tel"; "url"]).

(** C2, amended.  On an input event the handler writes the element's
    current value to the Model Value, whatever the props.  Exactly when
    the [trim] modifier is set and the entry type is text, search,
    password, tel or url, it also reads the element's selection start and
    end before the update flushes and queues a continuation; after the
    flush, whatever the re-render did to the element, the continuation
    assigns these very indices to the element's selection.  On a text
    control the selection then is the captured indices clamped to the
    length of the value the element holds by then: the captured indices
    themselves when they lie within that value.  Otherwise nothing is
    queued and nothing is assigned. *)
Theorem onInput_caret_clamped (e : Event.t) (el : Element) (w : World) :
  Event.target e = Some el →
  let v := HTMLInputElement.value (dom w el) in
  let s := HTMLInputElement.selectionStart (dom w el) in
  let n := HTMLInputElement.selectionEnd (dom w el) in
  ∃ w1 : World,
    onInput p e w = (Normal tt, w1)
    ∧ model w1 = MText v
    ∧ trace w1 = trace w ++ [Emit "update:modelValue" (PModel (MText v))]
    ∧ dom w1 = dom w
    ∧ ticks w1 = ticks w ++ (if preserving then [RestoreCaret el (s, n)] else [])
    ∧ ∀ render : DOM -> DOM, ∃ w2 : World,
        flush p render w1 = (Normal tt, w2)
        ∧ (preserving = true →
           selection_applies (render (dom w) el) = true →
           let len := String.length (HTMLInputElement.value (render (dom w) el)) in
           HTMLInputElement.selectionStart (dom w2 el)
           = Some (Nat.min (Nat.min (default 0%nat s) (default 0%nat n)) len)
           ∧ HTMLInputElement.selectionEnd (dom w2 el)
             = Some (Nat.min (default 0%nat n) len)
           ∧ ((default 0%nat s ≤ default 0%nat n)%nat →
              (default 0%nat n ≤ len)%nat →
              HTMLInputElement.selectionStart (dom w2 el) = Some (default 0%nat s)
              ∧ HTMLInputElement.selectionEnd (dom w2 el) = Some (default 0%nat n))
           ∧ HTMLInputElement.value (dom w2 el)
             = HTMLInputElement.value (render (dom w) el)
           ∧ ∃ before, trace w2 =
               trace w1 ++ before ++ [AssignSelectionStart el s; AssignSelectionEnd el n])
        ∧ (preserving = false → ticks w = [] →
           dom w2 = render (dom w) ∧ trace w2 = trace w1).
Proof.
  intros He v s n. subst v s n. unfold onInput. rewrite He. run.
  fold preserving. destruct preserving eqn:Hp; run.
  - eexists. split; [reflexivity|]. cbn. repeat (split; [reflexivity|]).
    intros render. unfold flush. run.
    match goal with |- context [run_tasks p (?q ++ [?t]) ?w0] =>
      destruct (run_tasks_snoc p q t w0) as (wa & wb & Ha & Hb & Hab);
      destruct (run_tasks_normal p q w0) as (wa' & Ha' & _ & _ & Hva & Hsa & fx & Hta)
    end.
    rewrite Ha in Ha'. injection Ha' as <-. rewrite Hab.
    exists wb. split; [reflexivity|]. split; [|discriminate]. intros _ Happ.
    cbn in Hva, Hsa, Hta.
    assert (∃ a, HTMLInputElement.selectionStart (dom wa el) = Some a) as [a Hsel].
    { specialize (Hsa el). rewrite Happ in Hsa. unfold selection_applies in Hsa.
      destruct (HTMLInputElement.selectionStart (dom wa el)) as [a|]; [eauto|done]. }
    destruct (restore_caret_run p el
                (HTMLInputElement.selectionStart (dom w el))
                (HTMLInputElement.selectionEnd (dom w el)) a wa Hsel)
      as (wb' & Hb' & Hel & _ & _ & _ & Htb).
    rewrite Hb in Hb'. injection Hb' as <-.
    rewrite Hel, Hva. cbn.
    split; [reflexivity|]. split; [reflexivity|].
    split.
    { intros Hsn Hn. split; do 2 f_equal; lia. }
    split; [reflexivity|].
    exists fx. rewrite Htb, Hta. by rewrite <- !app_assoc.
  - rewrite app_nil_r. eexists. split; [reflexivity|]. cbn.
    repeat (split; [reflexivity|]).
    intros render. unfold flush. run.
    destruct (run_tasks_normal p (ticks w)
                {| model := MText (HTMLInputElement.value (dom w el));
                   isFocused := isFocused w; inputRef := inputRef w;
                   activeElement := activeElement w; dom := render (dom w);
                   observer := observer w; ticks := [];
                   trace := trace w ++ [Emit "update:modelValue"
                              (PModel (MText (HTMLInputElement.value (dom w el))))] |})
      as (w2 & H2 & _).
    exists w2. split; [exact H2|]. split; [discriminate|].
    intros _ Hq. rewrite Hq in H2. cbn in H2. injection H2 as <-. by split.
Qed.

End Input.

Lemma onInput_caret_clamped_witness :
  ∃ w1 w2 : World,
    onInput Sample.text_props SampleWorld.input_event SampleWorld.world = (Normal tt, w1)
    ∧ model w1 = MText "  hi  "
    ∧ flush Sample.text_props SampleWorld.trimming w1 = (Normal tt, w2)
    ∧ HTMLInputElement.value (dom w2 SampleWorld.input) = "hi"
    ∧ HTMLInputElement.selectionStart (dom w2 SampleWorld.input) = Some 2%nat
    ∧ HTMLInputElement.selectionEnd (dom w2 SampleWorld.input) = Some 2%nat.
Proof.
  destruct (onInput_caret_clamped Sample.text_props SampleWorld.input_event
              SampleWorld.input SampleWorld.world eq_refl)
    as (w1 & H1 & Hm & _ & _ & _ & Hflush).
  destruct (Hflush SampleWorld.trimming) as (w2 & H2 & Hp & _).
  destruct (Hp eq_refl eq_refl) as (Hs & He & _ & Hv & _).
  exists w1, w2. repeat split; assumption.
Defined.

(** C2, as stated, fails on the trim round trip: with ["  hi  "] typed,
    the caret behind it at 6, and the value shown trimmed to ["hi"], the
    caret after the continuation is at 2, not at the captured 6. *)
Lemma caret_not_restored_counterexample :
  ∃ w1 w2 : World,
    onInput Sample.text_props SampleWorld.input_event SampleWorld.world = (Normal tt, w1)
    ∧ ticks w1 = [RestoreCaret SampleWorld.input (Some 6%nat, Some 6%nat)]
    ∧ flush Sample.text_props SampleWorld.trimming w1 = (Normal tt, w2)
    ∧ HTMLInputElement.selectionStart (dom w2 SampleWorld.input) = Some 2%nat
    ∧ HTMLInputElement.selectionEnd (dom w2 SampleWorld.input) = Some 2%nat
    ∧ HTMLInputElement.selectionStart (dom w2 SampleWorld.input) ≠ Some 6%nat.
Proof.
  do 2 eexists. do 5 (split; [vm_compute; reflexivity|]).
  intros H. vm_compute in H. discriminate H.
Qed.

(** A caret within the trimmed value is restored as it was captured. *)
Example caret_restored_within_value :
  ∃ w1 w2 : World,
    onInput Sample.text_props SampleWorld.input_event SampleWorld.caret_at_1
      = (Normal tt, w1)
    ∧ flush Sample.text_props SampleWorld.trimming w1 = (Normal tt, w2)
    ∧ HTMLInputElement.selectionStart (dom w2 SampleWorld.input) = Some 1%nat
    ∧ HTMLInputElement.selectionEnd (dom w2 SampleWorld.input) = Some 1%nat.
Proof.
  do 2 eexists. do 3 (split; [vm_compute; reflexivity|]).
  vm_compute; reflexivity.
Qed.

(** On an element the selection API does not apply to by the time of the
    tick, the continuation's first assignment throws; the tick goes on. *)
Example caret_on_other_control :
  ∃ w1 w2 : World,
    onInput Sample.text_props SampleWorld.input_event SampleWorld.world = (Normal tt, w1)
    ∧ flush Sample.text_props SampleWorld.retyped w1 = (Normal tt, w2)
    ∧ trace w2 = [Emit "update:modelValue" (PModel (MText "  hi  "));
                  AssignSelectionStart SampleWorld.input (Some 6%nat);
                  UnhandledRejection (DOMException "InvalidStateError")].
Proof.
  do 2 eexists. do 2 (split; [vm_compute; reflexivity|]).
  vm_compute; reflexivity.
Qed.

(** Without the modifier the caret stays where the re-render left it. *)
Example onInput_no_trim :
  ∃ w1 w2 : World,
    onInput Sample.counter5_props SampleWorld.input_event SampleWorld.world
      = (Normal tt, w1)
    ∧ model w1 = MText "  hi  "
    ∧ ticks w1 = []
    ∧ flush Sample.counter5_props SampleWorld.trimming w1 = (Normal tt, w2)
    ∧ HTMLInputElement.selectionStart (dom w2 SampleWorld.input) = Some 2%nat.
Proof. do 2 eexists. repeat split. Qed.

(** ** Autofocus on the first intersection *)

Section Autofocus.

Variable p : props.t.

(** [el.focus()] as [onIntersect] calls it returns, and is one call. *)
Lemma HTMLElement_focus_run (el : Element) (w : World) :
  ∃ w' : World,
    HTMLElement_focus onFocus blur el w = (Normal tt, w')
    ∧ focus_calls (trace w') = focus_calls (trace w) ++ [el]
    ∧ observer w' = observer w
    ∧ (inputRef w = Some el → activeElement w ≠ Some el →
       HTMLInputElement.focusable (dom w el) = true →
       isFocused w' = true ∧ activeElement w' = Some el).
Proof.
  unfold HTMLElement_focus. run.
  destruct (HTMLInputElement.focusable (dom w el)) eqn:Hfo; cbn.
  2:{ eexists. split; [reflexivity|]. cbn. rewrite focus_calls_app.
      repeat split; discriminate. }
  case_bool_decide as Hact; cbn.
  { eexists. split; [reflexivity|]. cbn. rewrite focus_calls_app.
    repeat split; done. }
  destruct (same_ref (activeElement w) (inputRef w)) eqn:Hsame; cbn.
  - (* the input loses the focus to [el] *)
    assert (inputRef w ≠ Some el) as Hin.
    { intros Hin. rewrite Hin in Hsame.
      destruct (activeElement w) as [a|]; [|discriminate]. cbn in Hsame.
      case_bool_decide; [subst; contradiction | discriminate]. }
    rewrite bool_decide_eq_false_2 by done.
    eexists. split; [reflexivity|]. cbn. rewrite !focus_calls_app. cbn.
    rewrite app_nil_r. repeat split; done.
  - case_bool_decide as Hin; cbn.
    + rewrite onFocus_run. eexists. split; [reflexivity|]. cbn.
      rewrite !focus_calls_app, onFocus_effects_focus_calls.
      unfold focus_target. cbn. rewrite Hin. cbn.
      rewrite bool_decide_eq_true_2 by done. cbn.
      rewrite app_nil_r. repeat split; try done.
    + eexists. split; [reflexivity|]. cbn. rewrite focus_calls_app.
      repeat split; done.
Qed.

(** One report to the directives of the input node. *)
Lemma report_not_intersecting (es : list IntersectionObserverEntry.t) (w : World) :
  report_all (input_directives p) (false, es) w = (Normal tt, w).
Proof.
  cbn. unfold report, onIntersect. run.
  destruct (observer w); cbn; [|reflexivity].
  rewrite orb_true_r, andb_false_r. reflexivity.
Qed.

Lemma report_unsubscribed (v : visibility) (w : World) :
  observer w = None → report_all (input_directives p) v w = (Normal tt, w).
Proof. intros H. cbn. unfold report. run. by rewrite H. Qed.

Lemma report_inert (v : visibility) (w : World) :
  props.autofocus p = false →
  ∃ w' : World,
    report_all (input_directives p) v w = (Normal tt, w')
    ∧ trace w' = trace w ∧ isFocused w' = isFocused w
    ∧ activeElement w' = activeElement w.
Proof.
  intros Ha. cbn. unfold report, onIntersect. run. rewrite Ha. cbn.
  destruct (observer w) as [s|]; cbn; [|by eexists].
  destruct (once s && v.1); cbn; by eexists.
Qed.

Lemma report_fires (entry : IntersectionObserverEntry.t)
    (es : list IntersectionObserverEntry.t) (el : Element) (w : World) :
  props.autofocus p = true →
  observer w = Some {| once := true |} →
  IntersectionObserverEntry.target entry = Some el →
  ∃ w' : World,
    report_all (input_directives p) (true, entry :: es) w = (Normal tt, w')
    ∧ focus_calls (trace w') = focus_calls (trace w) ++ [el]
    ∧ observer w' = None.
Proof.
  intros Ha Ho Ht. cbn -[HTMLElement_focus].
  unfold report, onIntersect, mbind, M_bind, mret, M_ret, get, modify.
  cbn -[HTMLElement_focus]. rewrite Ho, Ha, Ht. cbn -[HTMLElement_focus].
  destruct (HTMLElement_focus_run el w) as (w' & Hrun & Hcalls & _).
  rewrite Hrun. cbn. eexists. split; [reflexivity|]. by split.
Qed.

Lemma reports_app (vs vs' : list visibility) (w w1 : World) :
  reports p vs w = (Normal tt, w1) →
  reports p (vs ++ vs') w = reports p vs' w1.
Proof.
  revert w. induction vs as [|v vs IH]; intros w; cbn [reports app].
  - unfold mret, M_ret. by intros [= ->].
  - unfold mbind, M_bind.
    destruct (report_all (input_directives p) v w) as [[[]| |] w']; try discriminate.
    apply IH.
Qed.

Lemma reports_not_intersecting (vs : list visibility) (w : World) :
  Forall (fun v => v.1 = false) vs → reports p vs w = (Normal tt, w).
Proof.
  induction 1 as [|[i es] vs Hv _ IH]; [reflexivity|].
  cbn in Hv. subst i. cbn [reports]. unfold mbind, M_bind.
  by rewrite report_not_intersecting.
Qed.

Lemma reports_unsubscribed (vs : list visibility) (w : World) :
  observer w = None → reports p vs w = (Normal tt, w).
Proof.
  intros Ho. induction vs as [|v vs IH]; [reflexivity|].
  cbn [reports]. unfold mbind, M_bind. by rewrite report_unsubscribed.
Qed.

Lemma reports_inert (vs : list visibility) (w : World) :
  props.autofocus p = false →
  ∃ w' : World,
    reports p vs w = (Normal tt, w')
    ∧ trace w' = trace w ∧ isFocused w' = isFocused w
    ∧ activeElement w' = activeElement w.
Proof.
  intros Ha. revert w. induction vs as [|v vs IH]; intros w.
  - by exists w.
  - destruct (report_inert v w Ha) as (w1 & H1 & Ht1 & Hf1 & Ha1).
    destruct (IH w1) as (w2 & H2 & Ht2 & Hf2 & Ha2).
    exists w2. cbn [reports]. unfold mbind, M_bind. rewrite H1.
    split; [exact H2|]. repeat split; congruence.
Qed.

(** C3, amended.  Mounting the input subscribes the handler to the
    visibility detection, in fire-once mode, whatever [autofocus] is.
    With [autofocus] set, the non-intersecting reports change nothing; the
    first intersecting report calls [focus()] on the observed element,
    once, and tears the subscription down; no later report does anything.
    With [autofocus] unset the handler is inert: no report focuses
    anything. *)
Theorem autofocus_one_shot (w0 : World) :
  ∃ w : World,
    mount_all (input_directives p) w0 = (Normal tt, w)
    ∧ observer w = Some {| once := true |}
    ∧ trace w = trace w0
    ∧ (props.autofocus p = true →
       ∀ (before after : list visibility) (entry : IntersectionObserverEntry.t)
         (es : list IntersectionObserverEntry.t) (el : Element),
         Forall (fun v => v.1 = false) before →
         IntersectionObserverEntry.target entry = Some el →
         reports p before w = (Normal tt, w)
         ∧ ∃ w1 : World,
             reports p (before ++ [(true, entry :: es)]) w = (Normal tt, w1)
             ∧ focus_calls (trace w1) = focus_calls (trace w0) ++ [el]
             ∧ observer w1 = None
             ∧ reports p after w1 = (Normal tt, w1)
             ∧ reports p (before ++ (true, entry :: es) :: after) w = (Normal tt, w1))
    ∧ (props.autofocus p = false →
       ∀ vs : list visibility, ∃ w1 : World,
         reports p vs w = (Normal tt, w1)
         ∧ trace w1 = trace w0
         ∧ isFocused w1 = isFocused w0
         ∧ activeElement w1 = activeElement w0).
Proof.
  eexists. split; [reflexivity|]. cbn.
  split; [reflexivity|]. split; [reflexivity|]. split.
  - intros Ha before after entry es el Hbefore Htarget.
    set (w := with_observer (Some {| once := true |}) w0).
    pose proof (reports_not_intersecting before w Hbefore) as Hpre.
    split; [exact Hpre|].
    destruct (report_fires entry es el w Ha eq_refl Htarget) as (w1 & H1 & Hc & Ho).
    exists w1.
    assert (reports p [(true, entry :: es)] w = (Normal tt, w1)) as Hone.
    { cbn [reports]. unfold mbind, M_bind. by rewrite H1. }
    split; [by rewrite (reports_app _ _ _ _ Hpre)|].
    split; [exact Hc|]. split; [exact Ho|].
    split; [by apply reports_unsubscribed|].
    rewrite (reports_app _ _ _ _ Hpre). cbn [reports]. unfold mbind, M_bind.
    rewrite H1. by apply reports_unsubscribed.
  - intros Ha vs.
    destruct (reports_inert vs (with_observer (Some {| once := true |}) w0) Ha)
      as (w1 & H1 & Ht & Hf & Hact).
    exists w1. by repeat split.
Qed.

End Autofocus.

Lemma autofocus_one_shot_witness :
  (∃ w w1 : World,
     mount_all (input_directives Sample.text_props) SampleWorld.world = (Normal tt, w)
     ∧ reports Sample.text_props
         [(false, [SampleWorld.entry]); (true, [SampleWorld.entry]);
          (true, [SampleWorld.entry])] w = (Normal tt, w1)
     ∧ focus_calls (trace w1) = [SampleWorld.input]
     ∧ observer w1 = None)
  ∧ (∃ w w1 : World,
       mount_all (input_directives Sample.date_props) SampleWorld.world = (Normal tt, w)
       ∧ reports Sample.date_props
           [(true, [SampleWorld.entry]); (true, [SampleWorld.entry])] w = (Normal tt, w1)
       ∧ trace w1 = []).
Proof.
  split.
  - destruct (autofocus_one_shot Sample.text_props SampleWorld.world)
      as (w & Hm & _ & _ & Hon & _).
    destruct (Hon eq_refl [(false, [SampleWorld.entry])] [(true, [SampleWorld.entry])]
                SampleWorld.entry [] SampleWorld.input)
      as (_ & w1 & _ & Hc & Ho & _ & Hall).
    { repeat constructor. }
    { reflexivity. }
    exists w, w1. repeat split; assumption.
  - destruct (autofocus_one_shot Sample.date_props SampleWorld.world)
      as (w & Hm & _ & _ & _ & Hoff).
    destruct (Hoff eq_refl [(true, [SampleWorld.entry]); (true, [SampleWorld.entry])])
      as (w1 & H1 & Ht & _).
    exists w, w1. repeat split; assumption.
Defined.

(** C3, as stated, fails: with [autofocus] unset the input node still
    carries the directive, and mounting it subscribes. *)
Lemma autofocus_unset_subscribes_counterexample :
  props.autofocus Sample.date_props = false
  ∧ observer (mount_all (input_directives Sample.date_props) SampleWorld.world).2
    = Some {| once := true |}
  ∧ observer (mount_all (input_directives Sample.date_props) SampleWorld.world).2 ≠ None.
Proof. split; [reflexivity|]. split; [reflexivity|]. cbn. discriminate. Qed.

(** With [autofocus] set, the report that brings the field into view
    leaves it focused. *)
Example autofocus_focuses_field :
  ∃ w1 : World,
    (mount_all (input_directives Sample.text_props);;
     reports Sample.text_props [(true, [SampleWorld.entry])]) SampleWorld.world
      = (Normal tt, w1)
    ∧ isFocused w1 = true
    ∧ activeElement w1 = Some SampleWorld.input
    ∧ trace w1 = [FocusCall SampleWorld.input; Emit "update:focused" (PBool true)].
Proof. eexists. repeat split. Qed.

(** ** Totality *)

(** Told that the element intersects but handed no entry, [onIntersect]
    throws a TypeError reading [entries[0].target] (line 96). *)
Example onIntersect_empty_entries_throws (w : World) :
  onIntersect Sample.text_props true [] w
  = (Throw (TypeError "Cannot read properties of undefined (reading 'target')"), w).
Proof. reflexivity. Qed.

(** The optional chaining that follows does guard a missing target. *)
Example onIntersect_missing_target (w : World) :
  onIntersect Sample.text_props true [IntersectionObserverEntry.make None] w
  = (Normal tt, w).
Proof. reflexivity. Qed.







(** ** Scenarios *)

(** One unit of fuel does not cover the re-entrance through the input's
    focus listener; two do ([onFocus_rec_fuel]). *)
Example onFocus_rec_reenters :
  (onFocus_rec 1 SampleWorld.world).1 = OutOfFuel
  ∧ (onFocus_rec 2 SampleWorld.world).1 = Normal tt.
Proof. split; reflexivity. Qed.

(** The clear scenario: the Model Value is untouched when [onClear]
    returns and [null] after the tick, the callback is called then, and
    the field is focused at both points. *)
Example clear_scenario :
  ∃ w1 w2 : World,
    onClear SampleWorld.clear_click SampleWorld.world = (Normal tt, w1)
    ∧ model w1 = MText "" ∧ isFocused w1 = true
    ∧ flush Sample.text_props (fun d => d) w1 = (Normal tt, w2)
    ∧ model w2 = MNull ∧ isFocused w2 = true
    ∧ trace w2 = [StopPropagation SampleWorld.clear_click;
                  FocusCall SampleWorld.input;
                  Emit "update:focused" (PBool true);
                  Emit "update:modelValue" (PModel MNull);
                  CallListener 7%nat SampleWorld.clear_click].
Proof. do 2 eexists. repeat split. Qed.

(** The end-to-end scenario: a password field with [counter: 10] and the
    [trim] modifier, in which "secret" is typed before it loses the focus. *)
Example password_scenario :
  ∃ w1 w2 : World,
    (onFocus;; onInput Sample.password_props SampleWorld.input_event)
      SampleWorld.secret = (Normal tt, w1)
    ∧ blur w1 = (Normal tt, w2)
    ∧ model w2 = MText "secret"
    ∧ counterValue Sample.password_props (model w2) = Normal 6
    ∧ max ∅ Sample.password_props = VNumber 10
    ∧ isActive Sample.password_props (isFocused w1) = true
    ∧ isActive Sample.password_props (isFocused w2) = false.
Proof.
  do 2 eexists. split; [vm_compute; reflexivity|].
  split; [vm_compute; reflexivity|]. vm_compute. repeat split.
Qed.


(** * Further properties of the handlers *)

Section Interaction.

Lemma focus_target_after_onFocus (w : World) :
  (∀ el, inputRef w = Some el → HTMLInputElement.focusable (dom w el) = true) →
  focus_target (after_onFocus w) = None.
Proof.
  intros Hfo. unfold focus_target, after_onFocus. cbn.
  destruct (inputRef w) as [el|] eqn:Hi; [|reflexivity].
  unfold focus_target. rewrite Hi.
  destruct (same_ref (Some el) (activeElement w)) eqn:Hs.
  - by rewrite Hs.
  - rewrite (Hfo el eq_refl). cbn. by rewrite bool_decide_eq_true_2.
Qed.

(** What [onFocus] does depends on the references and the flag only, and
    on a focusable input a second run in a row does nothing. *)
Lemma onFocus_effects_ext (w1 w2 : World) :
  inputRef w1 = inputRef w2 →
  activeElement w1 = activeElement w2 →
  isFocused w1 = isFocused w2 →
  onFocus_effects w1 = onFocus_effects w2.
Proof.
  intros Hi Ha Hf. unfold onFocus_effects, focus_target. by rewrite Hi, Ha, Hf.
Qed.

Lemma onFocus_effects_after (w : World) :
  (∀ el, inputRef w = Some el → HTMLInputElement.focusable (dom w el) = true) →
  onFocus_effects (after_onFocus w) = [].
Proof.
  intros Hfo. unfold onFocus_effects.
  by rewrite (focus_target_after_onFocus w Hfo).
Qed.

(** X1. A click on the control runs the focus routine first and notifies
    [click:control] last, once: the field is focused when the handler
    returns, the Model Value and the queue are untouched, and the click is
    neither default-prevented nor stopped. *)
Theorem onControlClick_focus_then_notify (e : Event.t) (w : World) :
  ∃ (w' : World) (fx : list effect),
    onControlClick e w = (Normal tt, w')
    ∧ trace w' = trace w ++ fx ++ [Emit "click:control" (PEvent e)]
    ∧ focus_calls fx = match focus_target w with Some el => [el] | None => [] end
    ∧ focused_updates fx = (if isFocused w then [] else [true])
    ∧ (∀ x, x ∈ fx → ∃ el, x = FocusCall el ∨ x = Emit "update:focused" (PBool true))
    ∧ isFocused w' = true
    ∧ model w' = model w
    ∧ ticks w' = ticks w.
Proof.
  unfold onControlClick. run. rewrite onFocus_run. cbn.
  exists (with_trace (trace w ++ onFocus_effects w ++ [Emit "click:control" (PEvent e)])
            (after_onFocus w)), (onFocus_effects w).
  split. { unfold with_trace. cbn. by rewrite <- app_assoc. }
  split; [reflexivity|].
  split; [apply onFocus_effects_focus_calls|].
  split; [apply onFocus_effects_focused_updates|].
  split; [|by repeat split].
  intros x Hx. unfold onFocus_effects in Hx.
  destruct (focus_target w) as [el|], (isFocused w); cbn in Hx;
    repeat (apply elem_of_cons in Hx as [->|Hx]); try (by apply elem_of_nil in Hx);
    first [by exists el; left | by exists 0%nat; right | by exists el; right].
Qed.

(** X2. A press on the control outside the native input, that is a
    mousedown followed by a click, focuses once: one focus-state-changed
    notification when the field was unfocused and none otherwise, and,
    the input being focusable, at most one call of [focus()] on it; the
    mousedown's default is prevented and the click is notified last. *)
Theorem press_focuses_once (e1 e2 : Event.t) (w : World) :
  same_ref (Event.target e1) (inputRef w) = false →
  (∀ el, inputRef w = Some el → HTMLInputElement.focusable (dom w el) = true) →
  ∃ w' : World,
    (onControlMousedown e1;; onControlClick e2) w = (Normal tt, w')
    ∧ isFocused w' = true
    ∧ focused_updates (trace w')
      = focused_updates (trace w) ++ (if isFocused w then [] else [true])
    ∧ focus_calls (trace w')
      = focus_calls (trace w) ++ match focus_target w with Some el => [el] | None => [] end
    ∧ trace w'
      = trace w ++ Emit "mousedown:control" (PEvent e1) :: onFocus_effects w
        ++ [PreventDefault e1; Emit "click:control" (PEvent e2)].
Proof.
  intros Ht Hfo.
  set (w0 := with_trace (trace w ++ [Emit "mousedown:control" (PEvent e1)]) w).
  set (w1 := after_onFocus w0).
  set (w2 := with_trace (trace w1 ++ [PreventDefault e1]) w1).
  set (w3 := after_onFocus w2).
  exists (with_trace (trace w3 ++ [Emit "click:control" (PEvent e2)]) w3).
  assert (onFocus_effects w0 = onFocus_effects w) as Hfx0
    by (by apply onFocus_effects_ext).
  assert (onFocus_effects w2 = []) as Hfx2.
  { rewrite (onFocus_effects_ext w2 w1) by done. by apply onFocus_effects_after. }
  split.
  { unfold onControlMousedown, onControlClick. run. rewrite Ht.
    fold w0. rewrite onFocus_run. cbn. fold w1.
    change (onFocus ?x) with (onFocus w2). rewrite onFocus_run. reflexivity. }
  split; [reflexivity|].
  assert (trace (with_trace (trace w3 ++ [Emit "click:control" (PEvent e2)]) w3)
          = trace w ++ Emit "mousedown:control" (PEvent e1) :: onFocus_effects w
            ++ [PreventDefault e1; Emit "click:control" (PEvent e2)]) as ->.
  { cbn. rewrite Hfx2, Hfx0, app_nil_r. by rewrite <- !app_assoc. }
  rewrite !focused_updates_app, !focus_calls_app.
  change (focused_updates (?x :: ?l)) with (focused_updates l).
  change (focus_calls (?x :: ?l)) with (focus_calls l).
  rewrite !focused_updates_app, !focus_calls_app.
  rewrite onFocus_effects_focused_updates, onFocus_effects_focus_calls. cbn.
  by rewrite !app_nil_r.
Qed.

End Interaction.

Lemma press_focuses_once_witness :
  ∃ w' : World,
    (onControlMousedown SampleWorld.icon_mousedown;;
     onControlClick SampleWorld.clear_click) SampleWorld.world = (Normal tt, w')
    ∧ isFocused w' = true
    ∧ focused_updates (trace w') = [true]
    ∧ focus_calls (trace w') = [SampleWorld.input].
Proof.
  destruct (press_focuses_once SampleWorld.icon_mousedown SampleWorld.clear_click
              SampleWorld.world eq_refl (fun _ _ => eq_refl))
    as (w' & Hrun & Hf & Hu & Hc & _).
  exists w'. repeat split; assumption.
Defined.

Section InputAndClear.

Variable p : props.t.

(** X4. A click on the clear control is served once: over the next tick
    and any later one, the Model Value is notified as [null] once and the
    clear callback is called once, if one is configured, and never
    otherwise; the count then is 0 and the queue is empty. *)
Theorem onClear_served_once (e : Event.t) (w : World) (render render' : DOM -> DOM) :
  ticks w = [] →
  ∃ w1 w2 w3 : World,
    onClear e w = (Normal tt, w1)
    ∧ flush p render w1 = (Normal tt, w2)
    ∧ flush p render' w2 = (Normal tt, w3)
    ∧ model w3 = MNull
    ∧ ticks w2 = [] ∧ ticks w3 = []
    ∧ model_updates (trace w3) = model_updates (trace w) ++ [MNull]
    ∧ listener_calls (trace w3)
      = listener_calls (trace w)
        ++ match props.onClick_clear p with Some l => [(l, e)] | None => [] end
    ∧ trace w3 = trace w2
    ∧ (typeof_counterValueProp (props.counterValue p) ≠ TFunction →
       counterValue p (model w3) = Normal 0).
Proof.
  intros Hq. destruct w as [m f i a d o q t]. cbn in Hq. subst q.
  set (w := {| model := m; isFocused := f; inputRef := i; activeElement := a;
               dom := d; observer := o; ticks := []; trace := t |}).
  unfold onClear, flush. run. rewrite onFocus_run. cbn. run.
  destruct (props.onClick_clear p) as [l|] eqn:Hl;
    do 3 eexists; (split; [reflexivity|]); run; unfold run_job; run;
    rewrite ?Hl; cbn;
    (split; [reflexivity|]); run; (split; [reflexivity|]); cbn;
    rewrite <- ?app_assoc, !model_updates_app, !listener_calls_app; cbn;
    change (model_updates (onFocus_effects ?x))
      with (model_updates (onFocus_effects w));
    change (listener_calls (onFocus_effects ?x))
      with (listener_calls (onFocus_effects w));
    rewrite onFocus_effects_model_updates, onFocus_effects_listener_calls; cbn;
    rewrite ?app_nil_r; repeat split;
    intros Hcv; by rewrite (counterValue_by_length p _ Hcv).
Qed.

(** X5. The caret is left alone for every entry type that is always
    active (color, file, time, date, datetime-local, week, month) and
    whenever [modelModifiers] has no true [trim]: the handler queues no
    continuation then, whatever the other props. *)
Theorem onInput_leaves_caret (e : Event.t) (el : Element) (w : World) :
  Event.target e = Some el →
  props.type p ∈ activeTypes
  ∨ props.modelModifiers p = None
  ∨ (∃ m, props.modelModifiers p = Some m ∧ m !! "trim" ≠ Some true) →
  ∃ w1 : World,
    onInput p e w = (Normal tt, w1)
    ∧ ticks w1 = ticks w
    ∧ dom w1 = dom w
    ∧ trace w1
      = trace w ++ [Emit "update:modelValue"
                      (PModel (MText (HTMLInputElement.value (dom w el))))].
Proof.
  intros He Hno. unfold onInput. rewrite He. run.
  assert (trim p
          && bool_decide (props.type p ∈ ["text"; "search"; "password"; "tel"; "url"])
          = false) as ->.
  { destruct Hno as [Hty|[Hm|(m & Hm & Ht)]].
    - apply andb_false_intro2, bool_decide_eq_false_2. intros Hin.
      unfold activeTypes in Hty.
      repeat (apply elem_of_cons in Hty as [Hty|Hty];
              [rewrite Hty in Hin;
               by apply (bool_decide_pack _) in Hin; vm_compute in Hin|]).
      by apply elem_of_nil in Hty.
    - apply andb_false_intro1. unfold trim. by rewrite Hm.
    - apply andb_false_intro1. unfold trim. rewrite Hm.
      destruct (m !! "trim") as [[]|]; done. }
  run. by eexists.
Qed.

(** X6. [onInput] returns exactly when the event has a target; on an
    event without one it throws before it writes or queues anything. *)
Theorem onInput_returns_iff (e : Event.t) (w : World) :
  ((onInput p e w).1 = Normal tt ↔ Event.target e ≠ None)
  ∧ (Event.target e = None →
     ∃ err, onInput p e w = (Throw err, w)).
Proof.
  unfold onInput. destruct (Event.target e) as [el|]; run.
  - split; [|done]. split; [done|]. intros _.
    by destruct (trim p && _); run.
  - split; [|eauto]. split; [discriminate|done].
Qed.

End InputAndClear.

Lemma onClear_served_once_witness :
  ∃ w1 w2 w3 : World,
    onClear SampleWorld.clear_click SampleWorld.world = (Normal tt, w1)
    ∧ flush Sample.text_props SampleWorld.trimming w1 = (Normal tt, w2)
    ∧ flush Sample.text_props SampleWorld.trimming w2 = (Normal tt, w3)
    ∧ model w3 = MNull
    ∧ listener_calls (trace w3) = [(7%nat, SampleWorld.clear_click)].
Proof.
  destruct (onClear_served_once Sample.text_props SampleWorld.clear_click
              SampleWorld.world SampleWorld.trimming SampleWorld.trimming eq_refl)
    as (w1 & w2 & w3 & H1 & H2 & H3 & Hm & _ & _ & _ & Hl & _).
  exists w1, w2, w3. repeat split; assumption.
Defined.

Lemma onInput_leaves_caret_witness :
  ∃ w1 : World,
    onInput Sample.date_props SampleWorld.input_event SampleWorld.world = (Normal tt, w1)
    ∧ ticks w1 = []
    ∧ dom w1 = dom SampleWorld.world.
Proof.
  destruct (onInput_leaves_caret Sample.date_props SampleWorld.input_event
              SampleWorld.input SampleWorld.world eq_refl)
    as (w1 & Hrun & Hq & Hd & _).
  { left. apply (bool_decide_unpack _). vm_compute. exact I. }
  exists w1. repeat split; assumption.
Defined.

Section Intersect.

Variable p : props.t.

(** X7. With [autofocus] set, an intersecting report for the mounted
    input that is not yet the active element brings the field to the
    focused state through the input's own focus listener, with one
    notification if it was unfocused, provided the input is focusable; on
    an input that cannot take the focus (a disabled one) [focus()] is
    still called, but the focused state is left as it was. *)
Theorem onIntersect_focuses_field (entry : IntersectionObserverEntry.t)
    (es : list IntersectionObserverEntry.t) (el : Element) (w : World) :
  props.autofocus p = true →
  IntersectionObserverEntry.target entry = Some el →
  inputRef w = Some el →
  activeElement w ≠ Some el →
  ∃ w' : World,
    onIntersect p true (entry :: es) w = (Normal tt, w')
    ∧ focus_calls (trace w') = focus_calls (trace w) ++ [el]
    ∧ (if HTMLInputElement.focusable (dom w el)
       then isFocused w' = true
            ∧ activeElement w' = Some el
            ∧ focused_updates (trace w')
              = focused_updates (trace w) ++ (if isFocused w then [] else [true])
       else isFocused w' = isFocused w
            ∧ activeElement w' = activeElement w
            ∧ focused_updates (trace w') = focused_updates (trace w)).
Proof.
  intros Ha Ht Hi Hact. unfold onIntersect. rewrite Ha, Ht. cbn.
  unfold HTMLElement_focus. run.
  rewrite (bool_decide_eq_false_2 (activeElement w = Some el)) by done.
  assert (same_ref (activeElement w) (inputRef w) = false) as ->.
  { rewrite Hi. destruct (activeElement w) as [a|]; [|done]. cbn.
    apply bool_decide_eq_false_2. congruence. }
  destruct (HTMLInputElement.focusable (dom w el)); cbn.
  - rewrite bool_decide_eq_true_2 by done. rewrite onFocus_run.
    eexists. split; [reflexivity|]. cbn.
    rewrite !focus_calls_app, !focused_updates_app,
      onFocus_effects_focus_calls, onFocus_effects_focused_updates.
    unfold focus_target. cbn. rewrite Hi. cbn.
    rewrite bool_decide_eq_true_2 by done. cbn.
    rewrite !app_nil_r. by repeat split.
  - eexists. split; [reflexivity|]. cbn.
    rewrite focus_calls_app, focused_updates_app. cbn.
    by rewrite app_nil_r.
Qed.

(** X8. [onIntersect] throws exactly when [autofocus] is set, the report
    is intersecting and the entries are empty, and it has changed nothing
    by then; in every other case it returns. *)
Theorem onIntersect_throws_iff (isIntersecting : bool)
    (entries : list IntersectionObserverEntry.t) (w : World) :
  ((∃ err, (onIntersect p isIntersecting entries w).1 = Throw err)
   ↔ props.autofocus p = true ∧ isIntersecting = true ∧ entries = [])
  ∧ ((onIntersect p isIntersecting entries w).1 ≠ Normal tt →
     (onIntersect p isIntersecting entries w).2 = w)
  ∧ (props.autofocus p = false ∨ isIntersecting = false →
     onIntersect p isIntersecting entries w = (Normal tt, w)).
Proof.
  unfold onIntersect.
  destruct (props.autofocus p), isIntersecting; cbn;
    try (split; [split; [intros [err Herr]; discriminate Herr
                        | intros (? & ? & ?); discriminate]
                |split; [done | by intros _]]).
  destruct entries as [|entry es]; cbn.
  - split; [split; [done | eauto]|]. split; [done|]. intros [?|?]; discriminate.
  - split; [|split; [|intros [?|?]; discriminate]].
    + split; [|intros (_ & _ & ?); discriminate].
      intros [err Herr]. exfalso.
      destruct (IntersectionObserverEntry.target entry) as [el|]; [|discriminate].
      destruct (HTMLElement_focus_run el w) as (w' & Hrun & _).
      rewrite Hrun in Herr. discriminate.
    + intros Hn. exfalso. apply Hn.
      destruct (IntersectionObserverEntry.target entry) as [el|]; [|done].
      destruct (HTMLElement_focus_run el w) as (w' & Hrun & _). by rewrite Hrun.
Qed.

End Intersect.

Lemma onIntersect_focuses_field_witness :
  ∃ w' : World,
    onIntersect Sample.text_props true [SampleWorld.entry] SampleWorld.world
      = (Normal tt, w')
    ∧ isFocused w' = true
    ∧ activeElement w' = Some SampleWorld.input
    ∧ focused_updates (trace w') = [true].
Proof.
  destruct (onIntersect_focuses_field Sample.text_props SampleWorld.entry []
              SampleWorld.input SampleWorld.world eq_refl eq_refl eq_refl)
    as (w' & Hrun & _ & Hf & Ha & Hu).
  { discriminate. }
  exists w'. repeat split; assumption.
Defined.

(** * Properties of the render *)

Section Render.

Variable s : slots.t.
Variable p : props.t.
Variable d : decoration.t.
Variable sc : scope.t.

(** A proposition and the boolean that decides it. *)
Lemma decided_iff (P : Prop) `{Decision P} (b : bool) :
  bool_decide P = b → (P ↔ b = true).
Proof. intros <-. symmetry. apply bool_decide_eq_true. Qed.

Lemma decided_iff_false (P : Prop) `{Decision P} (b : bool) :
  bool_decide P = negb b → (P ↔ b = false).
Proof.
  intros Hb. rewrite <- (bool_decide_eq_true P), Hb. by destruct b.
Qed.

(** X9. A maximum that comes from the counter option is never computed
    for a hidden counter: when [maxlength] gives none and [max] is
    defined, the counter is rendered, in a details region. *)
Theorem counter_max_is_shown (attrs : gmap string value) (focused : bool)
    (m : modelValue) :
  truthy (prop attrs "maxlength") = false →
  max attrs p ≠ VUndefined →
  hasCounter s p = true
  ∧ hasDetails s p = true
  ∧ details_slot s p attrs focused m ≠ None.
Proof.
  intros Hml Hmax. unfold max in Hmax. rewrite Hml in Hmax.
  assert (truthy (props.counter p) = true) as Hc.
  { destruct (truthy (props.counter p)); [done|]. by cbn in Hmax. }
  assert (hasCounter s p = true) as Hhc.
  { unfold hasCounter. rewrite Hc. by destruct (slots.counter s). }
  split; [exact Hhc|].
  assert (hasDetails s p = true) as Hhd by (unfold hasDetails; by rewrite Hhc).
  split; [exact Hhd|]. unfold details_slot. by rewrite Hhd.
Qed.

(** X10. The details region is left out exactly when there is no counter
    slot, no truthy counter option, no truthy counting prop and no details
    slot.  When it renders, the owner's details come first; the counter
    follows a spacer span as the last element exactly when one of the
    first three holds, and it shows the resolved count and maximum, active
    when [persistentCounter] is set or the field is focused. *)
Theorem details_slot_counter (attrs : gmap string value) (focused : bool)
    (m : modelValue) :
  (details_slot s p attrs focused m = None
   ↔ slots.counter s = false ∧ truthy (props.counter p) = false
     ∧ truthy_counterValueProp (props.counterValue p) = false
     ∧ slots.details s = false)
  ∧ ∀ v : vnode,
      details_slot s p attrs focused m = Some (Normal v) →
      if hasCounter s p
      then ∃ n : Z,
             counterValue p m = Normal n
             ∧ counters v = [(props.persistentCounter p || focused, n, max attrs p)]
             ∧ outline v
               = (if slots.details s then ["slot:details"] else [])
                 ++ ["span"; "VCounter"]
      else counters v = []
           ∧ slots.details s = true
           ∧ outline v = ["slot:details"].
Proof.
  unfold details_slot, hasDetails. split.
  - unfold hasCounter.
    destruct (slots.counter s), (truthy (props.counter p)),
      (truthy_counterValueProp (props.counterValue p)), (slots.details s);
      cbn; split; try done; intros (? & ? & ? & ?); done.
  - intros v. destruct (hasCounter s p); cbn.
    + destruct (counterValue p m) as [n| |]; try discriminate.
      intros [= <-]. exists n. split; [reflexivity|].
      by destruct (slots.details s).
    + destruct (slots.details s); [|discriminate]. by intros [= <-].
Qed.


(** X12. The field's content holds the native input exactly once, after
    the prefix span and before the suffix span, each span being there
    exactly when its prop is a non-empty string.  With a default slot the
    input sits in a wrapper division marked [data-no-activator], behind
    the slot's content, and the wrapper carries the field's content class;
    without one there is no wrapper and the input carries that class. *)
Theorem field_content_outline (m : modelValue) (fieldClass : string) :
  let v := field_content s p d sc m fieldClass in
  outline v
  = (if truthy (string_prop (decoration.prefix d))
     then ["span.v-text-field__prefix"] else [])
    ++ (if slots.default s then ["div"; "slot:default"; "input"] else ["input"])
    ++ (if truthy (string_prop (decoration.suffix d))
        then ["span.v-text-field__suffix"] else [])
  ∧ native_inputs v = [if slots.default s then None else Some fieldClass]
  ∧ wrappers v = (if slots.default s then [(fieldClass, true)] else []).
Proof.
  unfold field_content, affix, string_prop.
  destruct (decoration.prefix d) as [x|], (decoration.suffix d) as [y|],
    (slots.default s); cbn;
    try destruct (negb (bool_decide (x = ""))); try destruct (negb (bool_decide (y = "")));
    by repeat split.
Qed.

(** X13. The root's modifier classes agree with what is rendered: the
    prefixed class is set exactly when the prefix span is rendered, the
    suffixed class exactly when the suffix span is, and the
    plain-underlined class exactly when the affixes are not centred. *)
Theorem root_class_matches_content (m : modelValue) (fieldClass : string) :
  let v := field_content s p d sc m fieldClass in
  ("v-text-field--prefixed" ∈ root_class d ↔ has_span "v-text-field__prefix" v = true)
  ∧ ("v-text-field--suffixed" ∈ root_class d ↔ has_span "v-text-field__suffix" v = true)
  ∧ ("v-text-field--plain-underlined" ∈ root_class d ↔ centerAffix d = false)
  ∧ "v-text-field" ∈ root_class d
  ∧ NoDup (root_class d).
Proof.
  unfold field_content, affix, string_prop, root_class, centerAffix,
    isPlainOrUnderlined, has_span.
  destruct (decoration.prefix d) as [x|], (decoration.suffix d) as [y|],
    (slots.default s),
    (bool_decide (decoration.variant d ∈ ["plain"; "underlined"])); cbn;
    try destruct (negb (bool_decide (x = ""))); try destruct (negb (bool_decide (y = "")));
    (split; [refine (decided_iff _ _ _); vm_compute; reflexivity|]);
    (split; [refine (decided_iff _ _ _); vm_compute; reflexivity|]);
    (split; [refine (decided_iff_false _ _ _); vm_compute; reflexivity|]);
    (split; [by apply (bool_decide_unpack _)|]);
    by apply (bool_decide_unpack _).
Qed.

(** X15. The field chrome is told it is inactive exactly when the entry
    type is not an always-active one and the persistent placeholder, the
    focus, the [active] override and the shell's dirty signal are all
    unset; a dirty shell makes it both active and dirty; and it is told of
    an error exactly when the shell's validity is [false], not while it is
    [null]. *)
Theorem VField_flags_resolution (focused : bool) :
  let f := VField_flags p d focused sc in
  (flag_active f = false
   ↔ (props.type p ∉ activeTypes)
     ∧ props.persistentPlaceholder p = false
     ∧ focused = false
     ∧ props.active p = false
     ∧ scope.isDirty sc = false)
  ∧ (scope.isDirty sc = true → flag_active f = true ∧ flag_dirty f = true)
  ∧ (flag_error f = true ↔ scope.isValid sc = Some false)
  ∧ (scope.isValid sc = None → flag_error f = false).
Proof.
  cbn. unfold isActive. split; [|split; [|split]].
  - rewrite !orb_false_iff, bool_decide_eq_false. tauto.
  - intros ->. by rewrite orb_true_r.
  - apply bool_decide_eq_true.
  - by intros ->.
Qed.

End Render.

Lemma counter_max_is_shown_witness :
  hasCounter SampleRender.no_slots Sample.counter5_props = true
  ∧ hasDetails SampleRender.no_slots Sample.counter5_props = true
  ∧ details_slot SampleRender.no_slots Sample.counter5_props ∅ false (MText "hello")
    ≠ None.
Proof.
  apply (counter_max_is_shown SampleRender.no_slots Sample.counter5_props ∅ false
           (MText "hello")); [reflexivity | discriminate].
Defined.

(** A maximum from [maxlength] alone shows no counter; a counter that is
    just switched on shows no maximum. *)
Example maxlength_without_counter :
  max {[ "maxlength" := VString "20" ]} Sample.date_props = VString "20"
  ∧ hasCounter SampleRender.no_slots Sample.date_props = false
  ∧ details_slot SampleRender.no_slots Sample.date_props
      {[ "maxlength" := VString "20" ]} false (MText "hello") = None.
Proof. by repeat split. Qed.

Example counter_without_maximum :
  ∃ v : vnode,
    details_slot SampleRender.no_slots (Sample.with_counterValue CVMissing) ∅ true
      (MText "hello") = Some (Normal v)
    ∧ counters v = [(true, 5, VUndefined)].
Proof. eexists. by split. Qed.

(** The counting function of the example breaks the render of a cleared
    field. *)
Example double_length_breaks_cleared_render :
  details_slot SampleRender.no_slots
    (Sample.with_counterValue (CVFunction Sample.double_length)) ∅ true MNull
  = Some (Throw (TypeError "Cannot read properties of null (reading 'length')")).
Proof. reflexivity. Qed.

Section Activation.

Variable p : props.t.
Variable d : decoration.t.
Variable sc : scope.t.

(** What the render makes of a field in the focused state. *)
Lemma focused_field_is_active (s : slots.t) (attrs : gmap string value)
    (m : modelValue) :
  isActive p true = true
  ∧ flag_active (VField_flags p d true sc) = true
  ∧ flag_focused (VField_flags p d true sc) = true
  ∧ ∀ v, details_slot s p attrs true m = Some (Normal v) →
         ∀ c, c ∈ counters v → c.1.1 = true.
Proof.
  assert (isActive p true = true) as Ha.
  { unfold isActive. by rewrite orb_true_r. }
  split; [exact Ha|]. cbn. rewrite Ha. split; [done|]. split; [done|].
  intros v. unfold details_slot.
  destruct (hasDetails s p); [|discriminate].
  destruct (hasCounter s p).
  - destruct (counterValue p m) as [n| |]; try discriminate.
    intros [= <-] c. rewrite orb_true_r.
    destruct (slots.details s); cbn; intros Hc;
      apply list_elem_of_singleton in Hc; by subst c.
  - intros [= <-] c. destruct (slots.details s); cbn; intros Hc;
      by apply elem_of_nil in Hc.
Qed.

(** X14. Every interaction with the control activates the field: after a
    click on the control, a click on the clear control, or a mousedown
    outside the native input, the render that follows finds the field
    active and focused whatever the props and the shell's state, and shows
    an active counter wherever it shows one. *)
Theorem interaction_activates_field (e : Event.t) (w : World) :
  let activated (w' : World) :=
    isActive p (isFocused w') = true
    ∧ flag_active (VField_flags p d (isFocused w') sc) = true
    ∧ flag_focused (VField_flags p d (isFocused w') sc) = true
    ∧ ∀ s attrs v,
        details_slot s p attrs (isFocused w') (model w') = Some (Normal v) →
        ∀ c, c ∈ counters v → c.1.1 = true in
  (∃ w', onControlClick e w = (Normal tt, w') ∧ activated w')
  ∧ (∃ w', onClear e w = (Normal tt, w') ∧ activated w')
  ∧ (same_ref (Event.target e) (inputRef w) = false →
     ∃ w', onControlMousedown e w = (Normal tt, w') ∧ activated w').
Proof.
  cbv zeta.
  assert (∀ w' : World, isFocused w' = true →
            isActive p (isFocused w') = true
            ∧ flag_active (VField_flags p d (isFocused w') sc) = true
            ∧ flag_focused (VField_flags p d (isFocused w') sc) = true
            ∧ ∀ s attrs v,
                details_slot s p attrs (isFocused w') (model w') = Some (Normal v) →
                ∀ c, c ∈ counters v → c.1.1 = true) as Hact.
  { intros w' ->.
    split; [apply (focused_field_is_active (slots.make false false false) ∅ MNull)|].
    split; [apply (focused_field_is_active (slots.make false false false) ∅ MNull)|].
    split; [apply (focused_field_is_active (slots.make false false false) ∅ MNull)|].
    intros s attrs. apply (focused_field_is_active s attrs (model w')). }
  unfold onControlClick, onClear, onControlMousedown. run.
  rewrite onFocus_run. cbn. rewrite onFocus_run. cbn.
  split; [eexists; split; [reflexivity|]; by apply Hact|].
  split; [eexists; split; [reflexivity|]; by apply Hact|].
  intros ->. rewrite onFocus_run. cbn.
  eexists. split; [reflexivity|]. by apply Hact.
Qed.

End Activation.

Lemma interaction_activates_field_witness :
  ∃ w' : World,
    onControlMousedown SampleWorld.icon_mousedown SampleWorld.world = (Normal tt, w')
    ∧ isActive Sample.password_props (isFocused w') = true
    ∧ flag_active (VField_flags Sample.password_props SampleRender.priced
                     (isFocused w') SampleRender.pristine) = true.
Proof.
  destruct (interaction_activates_field Sample.password_props SampleRender.priced
              SampleRender.pristine SampleWorld.icon_mousedown SampleWorld.world)
    as (_ & _ & Hmd).
  destruct (Hmd eq_refl) as (w' & Hrun & Ha & Hf & _).
  exists w'. repeat split; assumption.
Defined.
